(** * The coreth EVM plugin: block scheduling, atomic-transaction queue,
      tx-pool stabilisation, assembly callbacks and fund selection

    A shallow embedding of the [evm] package's [VM] (plugin/evm/vm.go).
    Go channels are bounded FIFO buffers and the mutex-protected fields
    are fields of one record that every operation takes and returns.
    The collaborators the package only calls are kept abstract: the ETH
    chain and the codec are records of functions held by the VM, an
    atomic transaction carries its own state-transfer method, and the
    RLP decoder, block verification, the burn address and the key type
    are variables of a section. *)

From Stdlib Require Import String ZArith List Bool Lia.
Import ListNotations.
Local Open Scope Z_scope.

(** ** Buffered channels

    [make(chan T, n)] is a FIFO of at most [n] elements.  The package
    sends and receives through [select] with a [default] branch; where it
    uses a plain send, the sender is parked while the buffer is full.
    The channels are buffered ones, of capacity one at least: the
    hand-over of an unbuffered channel to a receiver that is already
    waiting has no counterpart here. *)
Module Chan.

Record t (A : Type) : Type := mk { buf : list A; cap : nat }.
Arguments mk {A} _ _.
Arguments buf {A} _.
Arguments cap {A} _.

Definition make {A : Type} (n : nat) : t A := mk [] n.

(** [len(c)] *)
Definition len {A : Type} (c : t A) : nat := length (buf c).

Definition full {A : Type} (c : t A) : bool := Nat.leb (cap c) (len c).

(** [select { case c <- x: ...; default: ... }]: [None] is the default
    branch. *)
Definition try_send {A : Type} (c : t A) (x : A) : option (t A) :=
  if full c then None else Some (mk (buf c ++ [x]) (cap c)).

(** [select { case x := <-c: ...; default: ... }] *)
Definition try_recv {A : Type} (c : t A) : option (A * t A) :=
  match buf c with
  | [] => None
  | x :: rest => Some (x, mk rest (cap c))
  end.

End Chan.

(** ** Constants and errors of the package *)

Definition Millisecond : Z := 1000000.          (* time.Duration, in ns *)
Definition minBlockTime : Z := 250 * Millisecond.
Definition maxBlockTime : Z := 1000 * Millisecond.
Definition batchSize : Z := 250.
Definition pendingAtomicTxsCap : nat := 1024.    (* make(chan *Tx, 1024) *)
Definition x2cRate : Z := 1000000000.

Inductive bdTimerStateT : Type :=
| bdTimerStateMin
| bdTimerStateMax
| bdTimerStateLong.

(** The [errors.New] values of the package that the modelled functions
    return; [errForeign] stands for an error handed back by a
    collaborator (RLP decoder, chain, state transfer). *)
Inductive error : Type :=
| errEmptyBlock
| errCreateBlock
| errBlockFrequency
| errInvalidBlock
| errTooManyAtomicTx
| errInsufficientFunds
| errForeign (msg : string).

Definition Error (e : error) : string :=
  match e with
  | errEmptyBlock => "empty block"
  | errCreateBlock => "couldn't create block"
  | errBlockFrequency => "too frequent block issuance"
  | errInvalidBlock => "invalid block"
  | errTooManyAtomicTx => "too many pending atomic txs"
  | errInsufficientFunds => "insufficient funds"
  | errForeign msg => msg
  end.

Definition maxDuration (x y : Z) : Z := if x >? y then x else y.

(** [common.Hash] and [ids.ID] are 32-byte arrays and [common.Address] a
    20-byte array; each is held as the integer its bytes spell, so the
    zero value [common.Hash{}] is [0]. *)
Definition commonHash : Type := Z.
Definition commonAddress : Type := Z.
Definition zeroHash : commonHash := 0.
Definition bytes : Type := list Byte.byte.

Definition uint64 (z : Z) : Z := z mod 2 ^ 64.

(** A Go [(T, error)] return of which the caller reads [T] only when the
    error is nil. *)
Inductive result (A : Type) : Type :=
| Ok (a : A)
| Err (e : error).
Arguments Ok {A} _.
Arguments Err {A} _.

(** A call either returns or panics. *)
Inductive outcome (A : Type) : Type :=
| Ret (a : A)
| Panic.
Arguments Ret {A} _.
Arguments Panic {A}.

(** [commonEng.Message]; the package only ever sends [PendingTxs]. *)
Inductive Message : Type := PendingTxs.

(** What the package observes of a [types.Block]. *)
Record EthBlock : Type := {
  blockHash : commonHash;
  blockCoinbase : commonAddress;
  blockExtraData : bytes
}.

Record Block : Type := { id : commonHash; ethBlock : EthBlock }.

(** What the package reads of a [state.StateDB]: [big.Int] balances and
    the [uint64] nonce. *)
Record StateDB : Type := {
  GetBalance : commonAddress -> Z;
  GetBalanceMultiCoin : commonAddress -> commonHash -> Z;
  GetNonce : commonAddress -> Z
}.

(** The interface [UnsignedAtomicTx]: a value of it carries its own
    [EVMStateTransfer] method, which updates the state it is given and
    may fail. *)
Record UnsignedAtomicTx : Type := {
  EVMStateTransfer : StateDB -> StateDB * option error
}.

(** The dynamic value of the interface field [Tx.UnsignedTx]; the
    unchecked assertion [.(UnsignedAtomicTx)] panics on the last two. *)
Inductive UnsignedTxValue : Type :=
| IsAtomic (u : UnsignedAtomicTx)
| NotAtomic
| NilValue.

Record Tx : Type := { UnsignedTx : UnsignedTxValue; txPayload : bytes }.

(** [vm.codec]: [Marshal(codecVersion, tx)], [Unmarshal(bytes, tx)] and
    the re-initialisation [tx.Sign(codec, nil)] whose error the caller
    drops. *)
Record codecManager : Type := {
  Marshal : Tx -> result bytes;
  Unmarshal : bytes -> result Tx;
  Sign : Tx -> Tx
}.

(** The observable answers of [vm.chain] at the moment of a call. *)
Record ETHChain : Type := {
  PendingSize : result Z;
  VerifyBlock : EthBlock -> bool;
  BlockState : EthBlock -> result StateDB
}.

(** ** The VM

    The fields of [VM] the modelled functions read or write.
    [newBlockChan] is unbuffered: the list holds what the chain callbacks
    have handed over and [buildBlock] has yet to take.
    [blockDelayTimer] is the timeout last set and not yet fired. *)
Record VM : Type := {
  AVAXAssetID : commonHash;
  genesisHash : commonHash;
  chain : ETHChain;
  codec : codecManager;
  lastAccepted : Block;
  newBlockChan : list (option Block);
  networkChan : Chan.t Message;
  txPoolStabilizedHead : commonHash;
  txPoolStabilizedOk : Chan.t unit;
  blockDelayTimer : option Z;
  bdTimerState : bdTimerStateT;
  bdGenWaitFlag : bool;
  bdGenFlag : bool;
  atomicTxSubmitChan : Chan.t unit;
  pendingAtomicTxs : Chan.t Tx
}.

Definition set_newBlockChan (x : list (option Block)) (vm : VM) : VM :=
  {| AVAXAssetID := AVAXAssetID vm; genesisHash := genesisHash vm;
     chain := chain vm; codec := codec vm; lastAccepted := lastAccepted vm;
     newBlockChan := x; networkChan := networkChan vm;
     txPoolStabilizedHead := txPoolStabilizedHead vm;
     txPoolStabilizedOk := txPoolStabilizedOk vm;
     blockDelayTimer := blockDelayTimer vm; bdTimerState := bdTimerState vm;
     bdGenWaitFlag := bdGenWaitFlag vm; bdGenFlag := bdGenFlag vm;
     atomicTxSubmitChan := atomicTxSubmitChan vm;
     pendingAtomicTxs := pendingAtomicTxs vm |}.

Definition set_networkChan (x : Chan.t Message) (vm : VM) : VM :=
  {| AVAXAssetID := AVAXAssetID vm; genesisHash := genesisHash vm;
     chain := chain vm; codec := codec vm; lastAccepted := lastAccepted vm;
     newBlockChan := newBlockChan vm; networkChan := x;
     txPoolStabilizedHead := txPoolStabilizedHead vm;
     txPoolStabilizedOk := txPoolStabilizedOk vm;
     blockDelayTimer := blockDelayTimer vm; bdTimerState := bdTimerState vm;
     bdGenWaitFlag := bdGenWaitFlag vm; bdGenFlag := bdGenFlag vm;
     atomicTxSubmitChan := atomicTxSubmitChan vm;
     pendingAtomicTxs := pendingAtomicTxs vm |}.

Definition set_txPoolStabilizedHead (x : commonHash) (vm : VM) : VM :=
  {| AVAXAssetID := AVAXAssetID vm; genesisHash := genesisHash vm;
     chain := chain vm; codec := codec vm; lastAccepted := lastAccepted vm;
     newBlockChan := newBlockChan vm; networkChan := networkChan vm;
     txPoolStabilizedHead := x;
     txPoolStabilizedOk := txPoolStabilizedOk vm;
     blockDelayTimer := blockDelayTimer vm; bdTimerState := bdTimerState vm;
     bdGenWaitFlag := bdGenWaitFlag vm; bdGenFlag := bdGenFlag vm;
     atomicTxSubmitChan := atomicTxSubmitChan vm;
     pendingAtomicTxs := pendingAtomicTxs vm |}.

Definition set_txPoolStabilizedOk (x : Chan.t unit) (vm : VM) : VM :=
  {| AVAXAssetID := AVAXAssetID vm; genesisHash := genesisHash vm;
     chain := chain vm; codec := codec vm; lastAccepted := lastAccepted vm;
     newBlockChan := newBlockChan vm; networkChan := networkChan vm;
     txPoolStabilizedHead := txPoolStabilizedHead vm;
     txPoolStabilizedOk := x;
     blockDelayTimer := blockDelayTimer vm; bdTimerState := bdTimerState vm;
     bdGenWaitFlag := bdGenWaitFlag vm; bdGenFlag := bdGenFlag vm;
     atomicTxSubmitChan := atomicTxSubmitChan vm;
     pendingAtomicTxs := pendingAtomicTxs vm |}.

(** [vm.blockDelayTimer.SetTimeoutIn(d)] *)
Definition SetTimeoutIn (d : Z) (vm : VM) : VM :=
  {| AVAXAssetID := AVAXAssetID vm; genesisHash := genesisHash vm;
     chain := chain vm; codec := codec vm; lastAccepted := lastAccepted vm;
     newBlockChan := newBlockChan vm; networkChan := networkChan vm;
     txPoolStabilizedHead := txPoolStabilizedHead vm;
     txPoolStabilizedOk := txPoolStabilizedOk vm;
     blockDelayTimer := Some d; bdTimerState := bdTimerState vm;
     bdGenWaitFlag := bdGenWaitFlag vm; bdGenFlag := bdGenFlag vm;
     atomicTxSubmitChan := atomicTxSubmitChan vm;
     pendingAtomicTxs := pendingAtomicTxs vm |}.

Definition set_bdTimerState (x : bdTimerStateT) (vm : VM) : VM :=
  {| AVAXAssetID := AVAXAssetID vm; genesisHash := genesisHash vm;
     chain := chain vm; codec := codec vm; lastAccepted := lastAccepted vm;
     newBlockChan := newBlockChan vm; networkChan := networkChan vm;
     txPoolStabilizedHead := txPoolStabilizedHead vm;
     txPoolStabilizedOk := txPoolStabilizedOk vm;
     blockDelayTimer := blockDelayTimer vm; bdTimerState := x;
     bdGenWaitFlag := bdGenWaitFlag vm; bdGenFlag := bdGenFlag vm;
     atomicTxSubmitChan := atomicTxSubmitChan vm;
     pendingAtomicTxs := pendingAtomicTxs vm |}.

Definition set_bdGenWaitFlag (x : bool) (vm : VM) : VM :=
  {| AVAXAssetID := AVAXAssetID vm; genesisHash := genesisHash vm;
     chain := chain vm; codec := codec vm; lastAccepted := lastAccepted vm;
     newBlockChan := newBlockChan vm; networkChan := networkChan vm;
     txPoolStabilizedHead := txPoolStabilizedHead vm;
     txPoolStabilizedOk := txPoolStabilizedOk vm;
     blockDelayTimer := blockDelayTimer vm; bdTimerState := bdTimerState vm;
     bdGenWaitFlag := x; bdGenFlag := bdGenFlag vm;
     atomicTxSubmitChan := atomicTxSubmitChan vm;
     pendingAtomicTxs := pendingAtomicTxs vm |}.

Definition set_bdGenFlag (x : bool) (vm : VM) : VM :=
  {| AVAXAssetID := AVAXAssetID vm; genesisHash := genesisHash vm;
     chain := chain vm; codec := codec vm; lastAccepted := lastAccepted vm;
     newBlockChan := newBlockChan vm; networkChan := networkChan vm;
     txPoolStabilizedHead := txPoolStabilizedHead vm;
     txPoolStabilizedOk := txPoolStabilizedOk vm;
     blockDelayTimer := blockDelayTimer vm; bdTimerState := bdTimerState vm;
     bdGenWaitFlag := bdGenWaitFlag vm; bdGenFlag := x;
     atomicTxSubmitChan := atomicTxSubmitChan vm;
     pendingAtomicTxs := pendingAtomicTxs vm |}.

Definition set_atomicTxSubmitChan (x : Chan.t unit) (vm : VM) : VM :=
  {| AVAXAssetID := AVAXAssetID vm; genesisHash := genesisHash vm;
     chain := chain vm; codec := codec vm; lastAccepted := lastAccepted vm;
     newBlockChan := newBlockChan vm; networkChan := networkChan vm;
     txPoolStabilizedHead := txPoolStabilizedHead vm;
     txPoolStabilizedOk := txPoolStabilizedOk vm;
     blockDelayTimer := blockDelayTimer vm; bdTimerState := bdTimerState vm;
     bdGenWaitFlag := bdGenWaitFlag vm; bdGenFlag := bdGenFlag vm;
     atomicTxSubmitChan := x;
     pendingAtomicTxs := pendingAtomicTxs vm |}.

Definition set_pendingAtomicTxs (x : Chan.t Tx) (vm : VM) : VM :=
  {| AVAXAssetID := AVAXAssetID vm; genesisHash := genesisHash vm;
     chain := chain vm; codec := codec vm; lastAccepted := lastAccepted vm;
     newBlockChan := newBlockChan vm; networkChan := networkChan vm;
     txPoolStabilizedHead := txPoolStabilizedHead vm;
     txPoolStabilizedOk := txPoolStabilizedOk vm;
     blockDelayTimer := blockDelayTimer vm; bdTimerState := bdTimerState vm;
     bdGenWaitFlag := bdGenWaitFlag vm; bdGenFlag := bdGenFlag vm;
     atomicTxSubmitChan := atomicTxSubmitChan vm;
     pendingAtomicTxs := x |}.

(** [Initialize]: the fields it sets that the scheduler, the queue and
    the synchronizer depend on.  [genesis] is
    [vm.chain.GetGenesisBlock()], [accepted] the last accepted block the
    chain state starts from and [toEngine] the engine's channel. *)
Definition Initialize (avax : commonHash) (ch : ETHChain) (cdc : codecManager)
    (genesis : EthBlock) (accepted : Block) (toEngine : Chan.t Message) : VM :=
  {| AVAXAssetID := avax;
     genesisHash := blockHash genesis;
     chain := ch;
     codec := cdc;
     lastAccepted := accepted;
     newBlockChan := [];
     networkChan := toEngine;
     txPoolStabilizedHead := zeroHash;
     txPoolStabilizedOk := Chan.make 1;
     blockDelayTimer := None;
     bdTimerState := bdTimerStateLong;
     bdGenWaitFlag := true;
     bdGenFlag := false;
     atomicTxSubmitChan := Chan.make 1;
     pendingAtomicTxs := Chan.make pendingAtomicTxsCap |}.

(** ** Atomic transaction queue *)

Definition issueTx (vm : VM) (tx : Tx) : VM * option error :=
  match Chan.try_send (pendingAtomicTxs vm) tx with
  | Some q =>
      let vm1 := set_pendingAtomicTxs q vm in
      match Chan.try_send (atomicTxSubmitChan vm1) tt with
      | Some c => (set_atomicTxSubmitChan c vm1, None)
      | None => (vm1, None)
      end
  | None => (vm, Some errTooManyAtomicTx)
  end.

(** ** Block production scheduler *)

(** The non-blocking push of [PendingTxs] that ends [tryBlockGen]. *)
Definition notifyEngine (vm : VM) : VM * option error :=
  match Chan.try_send (networkChan vm) PendingTxs with
  | Some c => (set_bdGenFlag true (set_networkChan c vm), None)
  | None => (vm, Some errBlockFrequency)
  end.

Definition tryBlockGen (vm : VM) : VM * option error :=
  if bdGenFlag vm then (vm, None)
  else
    let vm1 := set_bdGenWaitFlag true vm in
    match PendingSize (chain vm1) with
    | Err e => (vm1, Some e)
    | Ok size =>
        if (size =? 0) && Nat.eqb (Chan.len (pendingAtomicTxs vm1)) 0
        then (vm1, None)
        else
          match bdTimerState vm1 with
          | bdTimerStateMin => (vm1, None)
          | bdTimerStateMax =>
              if size <? batchSize then (vm1, None) else notifyEngine vm1
          | bdTimerStateLong => notifyEngine vm1
          end
    end.

(** The part of the [blockDelayTimer] handler that runs under [bdlock]:
    the state switch, and the read of [bdGenWaitFlag] it returns. *)
Definition timerSwitch (vm : VM) : VM * bool :=
  let vm1 :=
    match bdTimerState vm with
    | bdTimerStateMin =>
        SetTimeoutIn (maxDuration (maxBlockTime - minBlockTime) 0)
                     (set_bdTimerState bdTimerStateMax vm)
    | bdTimerStateMax => set_bdTimerState bdTimerStateLong vm
    | bdTimerStateLong => vm
    end in
  (vm1, bdGenWaitFlag vm1).

(** The handler given to [timer.NewTimer] in [start]; the error of
    [tryBlockGen] is dropped. *)
Definition blockDelayTimerHandler (vm : VM) : VM :=
  let '(vm1, tryAgain) := timerSwitch vm in
  if tryAgain then fst (tryBlockGen vm1) else vm1.

(** ** Chain callbacks *)

(** A send on the unbuffered [newBlockChan]. *)
Definition sendNewBlock (b : option Block) (vm : VM) : VM :=
  set_newBlockChan (newBlockChan vm ++ [b]) vm.

(** [raw, _ := vm.codec.Marshal(codecVersion, atx)]: a failed marshal
    leaves [raw] nil. *)
Definition marshalRaw (vm : VM) (atx : Tx) : bytes :=
  match Marshal (codec vm) atx with
  | Ok raw => raw
  | Err _ => []
  end.

(** The callback of [SetOnFinalizeAndAssemble]: the new VM, the state
    after the call, and the returned [([]byte, error)]. *)
Definition onFinalizeAndAssemble {T : Type} (vm : VM) (state : StateDB)
    (txs : list T) : VM * StateDB * outcome (bytes * option error) :=
  match Chan.try_recv (pendingAtomicTxs vm) with
  | Some (atx, q) =>
      let vm1 := set_pendingAtomicTxs q vm in
      match UnsignedTx atx with
      | IsAtomic u =>
          match EVMStateTransfer u state with
          | (state1, Some err) =>
              (sendNewBlock None vm1, state1, Ret ([], Some err))
          | (state1, None) =>
              (vm1, state1, Ret (marshalRaw vm1 atx, None))
          end
      | _ => (vm1, state, Panic)
      end
  | None =>
      match txs with
      | [] => (sendNewBlock None vm, state, Ret ([], Some errEmptyBlock))
      | _ :: _ => (vm, state, Ret ([], None))
      end
  end.

Definition extractAtomicTx (vm : VM) (block : EthBlock) : option Tx :=
  match Unmarshal (codec vm) (blockExtraData block) with
  | Err _ => None
  | Ok atx => Some (Sign (codec vm) atx)
  end.

(** The callback of [SetOnExtraStateChange]. *)
Definition onExtraStateChange (vm : VM) (block : EthBlock) (state : StateDB)
    : StateDB * outcome (option error) :=
  match extractAtomicTx vm block with
  | None => (state, Ret None)
  | Some tx =>
      match UnsignedTx tx with
      | IsAtomic u =>
          let '(state1, err) := EVMStateTransfer u state in (state1, Ret err)
      | _ => (state, Panic)
      end
  end.

Section Collaborators.

(** [blk.Verify()] of block.go, [rlp.DecodeBytes] into a [types.Block],
    the constant [coreth.BlackholeAddr], and the key type of
    avalanchego's [crypto] with the address derivation [GetEthAddress]:
    none is defined in vm.go, so each is a variable here. *)
Variable BlockVerify : VM -> Block -> option error.
Variable rlpDecodeBlock : bytes -> result EthBlock.
Variable BlackholeAddr : commonAddress.
Variable PrivateKey : Type.
Variable GetEthAddress : PrivateKey -> commonAddress.

(** The callback of [SetOnSealFinish]. *)
Definition onSealFinish (vm : VM) (block : EthBlock) : VM * option error :=
  let blk := {| id := blockHash block; ethBlock := block |} in
  match BlockVerify vm blk with
  | Some _ => (sendNewBlock None vm, Some errInvalidBlock)
  | None =>
      (set_txPoolStabilizedHead (blockHash block) (sendNewBlock (Some blk) vm),
       None)
  end.

(** ** buildBlock

    [vm.chain.GenBlock()] makes the chain run the callbacks above, which
    hand their verdict over [newBlockChan]; [buildBlock] is modelled from
    the receive on.  It can be parked at either of its two receives. *)
Inductive buildResult : Type :=
| Built (b : Block)
| Failed (e : error)
| AwaitNewBlock
| AwaitStabilized (b : Block).

Definition resetTimer (vm : VM) : VM :=
  SetTimeoutIn minBlockTime
    (set_bdGenFlag false
       (set_bdGenWaitFlag false
          (set_bdTimerState bdTimerStateMin vm))).

Definition buildBlock (vm : VM) : VM * buildResult :=
  match newBlockChan vm with
  | [] => (vm, AwaitNewBlock)
  | block :: rest =>
      let vm1 := set_newBlockChan rest vm in
      match block with
      | None => (vm1, Failed errCreateBlock)
      | Some blk =>
          let vm2 := resetTimer vm1 in
          match Chan.try_recv (txPoolStabilizedOk vm2) with
          | Some (_, c) => (set_txPoolStabilizedOk c vm2, Built blk)
          | None => (vm2, AwaitStabilized blk)
          end
      end
  end.

(** ** parseBlock *)
Definition parseBlock (vm : VM) (b : bytes) : result Block :=
  match rlpDecodeBlock b with
  | Err e => Err e
  | Ok ethBlock =>
      if negb (VerifyBlock (chain vm) ethBlock) then Err errInvalidBlock
      else
        let blockHash := blockHash ethBlock in
        if negb (blockHash =? genesisHash vm)
           && negb (blockCoinbase ethBlock =? BlackholeAddr)
        then Err errInvalidBlock
        else Ok {| id := blockHash; ethBlock := ethBlock |}
  end.

(** ** Tx-pool stabilisation listener *)

(** [e.Data] of a [*event.TypeMuxEvent]. *)
Inductive EventData : Type :=
| NewMinedBlockEvent (block : EthBlock)
| OtherData.

(** What one [select] of the listener's loop wakes up on: a receive
    [e, ok] from the subscription ([e] may be nil), or the shutdown
    channel. *)
Inductive Wakeup : Type :=
| Recv (e : option EventData) (ok : bool)
| Shutdown.

(** After one iteration the loop goes round again, has returned, or is
    parked in the send on [txPoolStabilizedOk] with the lock held. *)
Inductive Listener : Type :=
| Continue (vm : VM)
| Exited (vm : VM)
| Parked (vm : VM).

Definition awaitTxPoolStabilized_step (vm : VM) (w : Wakeup) : Listener :=
  match w with
  | Shutdown => Exited vm
  | Recv None _ => Continue vm
  | Recv (Some d) ok =>
      if negb ok then Exited vm
      else
        match d with
        | NewMinedBlockEvent block =>
            if txPoolStabilizedHead vm =? blockHash block then
              match Chan.try_send (txPoolStabilizedOk vm) tt with
              | Some c =>
                  Continue (set_txPoolStabilizedHead zeroHash
                              (set_txPoolStabilizedOk c vm))
              | None => Parked vm
              end
            else Continue vm
        | OtherData => Continue vm
        end
  end.

Fixpoint awaitTxPoolStabilized (vm : VM) (ws : list Wakeup) : Listener :=
  match ws with
  | [] => Continue vm
  | w :: rest =>
      match awaitTxPoolStabilized_step vm w with
      | Continue vm1 => awaitTxPoolStabilized vm1 rest
      | stopped => stopped
      end
  end.

(** The VM a listener outcome carries. *)
Definition listenerVM (l : Listener) : VM :=
  match l with
  | Continue vm | Exited vm | Parked vm => vm
  end.

(** The block hash a wake-up reports, when it is a mined-block event
    that the loop gets to compare. *)
Definition minedHash (w : Wakeup) : option commonHash :=
  match w with
  | Recv (Some (NewMinedBlockEvent block)) true => Some (blockHash block)
  | _ => None
  end.

(** ** Fund selection *)

Record AtomicEVMInput : Type := {
  Address : commonAddress;
  Amount : Z;
  AssetID : commonHash;
  Nonce : Z
}.

Definition getLastAcceptedEthBlock (vm : VM) : EthBlock :=
  ethBlock (lastAccepted vm).

Definition GetAcceptedNonce (vm : VM) (address : commonAddress) : result Z :=
  match BlockState (chain vm) (getLastAcceptedEthBlock vm) with
  | Err e => Err e
  | Ok state => Ok (GetNonce state address)
  end.

(** The [uint64] balance the loop computes for an address: AVAX is held
    in the state at [x2cRate] times its unit; [big.Int.Uint64] keeps the
    low 64 bits. *)
Definition assetBalance (vm : VM) (state : StateDB) (assetID : commonHash)
    (addr : commonAddress) : Z :=
  if assetID =? AVAXAssetID vm
  then uint64 (GetBalance state addr / x2cRate)
  else uint64 (GetBalanceMultiCoin state addr assetID).

(** The [for _, key := range keys] loop, with its three loop variables;
    [Err] is the early [return nil, nil, err]. *)
Fixpoint spendLoop (vm : VM) (state : StateDB) (assetID : commonHash)
    (keys : list PrivateKey) (amount : Z)
    (inputs : list AtomicEVMInput) (signers : list (list PrivateKey))
    : result (list AtomicEVMInput * list (list PrivateKey) * Z) :=
  match keys with
  | [] => Ok (inputs, signers, amount)
  | key :: rest =>
      if amount =? 0 then Ok (inputs, signers, amount)
      else
        let addr := GetEthAddress key in
        let balance := assetBalance vm state assetID addr in
        if balance =? 0 then
          spendLoop vm state assetID rest amount inputs signers
        else
          let balance1 := if amount <? balance then amount else balance in
          match GetAcceptedNonce vm addr with
          | Err e => Err e
          | Ok nonce =>
              spendLoop vm state assetID rest (uint64 (amount - balance1))
                (inputs ++ [{| Address := addr; Amount := balance1;
                               AssetID := assetID; Nonce := nonce |}])
                (signers ++ [[key]])
          end
  end.

Definition GetSpendableFunds (vm : VM) (keys : list PrivateKey)
    (assetID : commonHash) (amount : Z)
    : result (list AtomicEVMInput * list (list PrivateKey)) :=
  match BlockState (chain vm) (getLastAcceptedEthBlock vm) with
  | Err e => Err e
  | Ok state =>
      match spendLoop vm state assetID keys amount [] [] with
      | Err e => Err e
      | Ok (inputs, signers, amount1) =>
          if amount1 >? 0 then Err errInsufficientFunds
          else Ok (inputs, signers)
      end
  end.

(** The greedy selection as the specification words it: visit the
    identities in order while the remaining amount is positive, skip a
    zero balance, otherwise consume [min balance remaining] with the
    identity's nonce and subtract it.  Returns the selections and what
    remains uncovered. *)
Fixpoint specGreedy (balance nonce : PrivateKey -> Z)
    (keys : list PrivateKey) (remaining : Z)
    : list (PrivateKey * Z * Z) * Z :=
  match keys with
  | [] => ([], remaining)
  | k :: rest =>
      if 0 <? remaining then
        if balance k =? 0 then specGreedy balance nonce rest remaining
        else
          let c := Z.min (balance k) remaining in
          let '(sel, r) := specGreedy balance nonce rest (remaining - c) in
          ((k, c, nonce k) :: sel, r)
      else ([], remaining)
  end.

Definition specInput (assetID : commonHash) (s : PrivateKey * Z * Z)
    : AtomicEVMInput :=
  let '(k, c, n) := s in
  {| Address := GetEthAddress k; Amount := c; AssetID := assetID; Nonce := n |}.

Definition specSigner (s : PrivateKey * Z * Z) : list PrivateKey :=
  let '(k, _, _) := s in [k].

(** The specified result: failure with no inputs when something remains
    uncovered, the selections otherwise. *)
Definition specSpendableFunds (balance nonce : PrivateKey -> Z)
    (keys : list PrivateKey) (assetID : commonHash) (amount : Z)
    : result (list AtomicEVMInput * list (list PrivateKey)) :=
  let '(sel, r) := specGreedy balance nonce keys amount in
  if 0 <? r then Err errInsufficientFunds
  else Ok (map (specInput assetID) sel, map specSigner sel).

End Collaborators.

Arguments GetSpendableFunds {PrivateKey} GetEthAddress vm keys assetID amount.
Arguments spendLoop {PrivateKey} GetEthAddress vm state assetID keys amount
  inputs signers.
Arguments specGreedy {PrivateKey} balance nonce keys remaining.
Arguments specInput {PrivateKey} GetEthAddress assetID s.
Arguments specSigner {PrivateKey} s.
Arguments specSpendableFunds {PrivateKey} GetEthAddress balance nonce keys
  assetID amount.

(** ** A small concrete world

    Three accounts [1], [2], [3] holding [0], [5] and [10] of every asset
    (AVAX scaled by [x2cRate]), a codec that writes a transaction as its
    payload and rejects the empty byte string, and a chain with nothing
    pending. *)
Module Sample.

Definition state : StateDB :=
  {| GetBalance := fun a =>
       if a =? 2 then 5 * x2cRate else if a =? 3 then 10 * x2cRate else 0;
     GetBalanceMultiCoin := fun a _ =>
       if a =? 2 then 5 else if a =? 3 then 10 else 0;
     GetNonce := fun a => 40 + a |}.

Definition transfer : UnsignedAtomicTx :=
  {| EVMStateTransfer := fun s => (s, None) |}.

Definition tx (payload : bytes) : Tx :=
  {| UnsignedTx := IsAtomic transfer; txPayload := payload |}.

Definition cdc : codecManager :=
  {| Marshal := fun t => Ok (txPayload t);
     Unmarshal := fun b =>
       match b with
       | [] => Err (errForeign "unexpected end of input")
       | _ :: _ => Ok (tx b)
       end;
     Sign := fun t => t |}.

Definition ethChain (pending : Z) : ETHChain :=
  {| PendingSize := Ok pending;
     VerifyBlock := fun _ => true;
     BlockState := fun _ => Ok state |}.

Definition genesis : EthBlock :=
  {| blockHash := 1000; blockCoinbase := 0; blockExtraData := [] |}.

Definition sealed : EthBlock :=
  {| blockHash := 2000; blockCoinbase := 0; blockExtraData := [] |}.

Definition avax : commonHash := 77.
Definition asset : commonHash := 88.

(** The VM right after [Initialize], with [pending] ordinary
    transactions in the pool and room for [n] engine notifications. *)
Definition vm (pending : Z) (n : nat) : VM :=
  Initialize avax (ethChain pending) cdc genesis
    {| id := blockHash genesis; ethBlock := genesis |} (Chan.make n).

(** A queue filled to capacity. *)
Definition fullQueue : Chan.t Tx :=
  Chan.mk (repeat (tx []) pendingAtomicTxsCap) pendingAtomicTxsCap.

(** The VM after the chain sealed [sealed] and it passed verification,
    and a block whose hash is the zero value. *)
Definition sealedVM : VM := fst (onSealFinish (fun _ _ => None) (vm 1 1) sealed).

Definition zeroBlock : EthBlock :=
  {| blockHash := zeroHash; blockCoinbase := 0; blockExtraData := [] |}.

(** One round in which the build fails: the engine has been notified
    for one pending transaction ([announced]), but by the time the chain
    assembles the block the pool hands it no transaction and no atomic
    transaction is queued ([emptyAssembly]). *)
Definition announced : VM := fst (tryBlockGen (vm 1 1)).

Definition emptyAssembly : VM :=
  fst (fst (onFinalizeAndAssemble announced state (@nil unit))).

End Sample.

(** ** The rest of the VM

    The functions of vm.go beside the ones above: the loop that turns
    submissions into proposal attempts, block lookup, the atomic UTXO
    query and the address helpers, with the calls that reach the
    scheduler from different goroutines put in sequence. *)

Definition set_chain (x : ETHChain) (vm : VM) : VM :=
  {| AVAXAssetID := AVAXAssetID vm; genesisHash := genesisHash vm;
     chain := x; codec := codec vm; lastAccepted := lastAccepted vm;
     newBlockChan := newBlockChan vm; networkChan := networkChan vm;
     txPoolStabilizedHead := txPoolStabilizedHead vm;
     txPoolStabilizedOk := txPoolStabilizedOk vm;
     blockDelayTimer := blockDelayTimer vm; bdTimerState := bdTimerState vm;
     bdGenWaitFlag := bdGenWaitFlag vm; bdGenFlag := bdGenFlag vm;
     atomicTxSubmitChan := atomicTxSubmitChan vm;
     pendingAtomicTxs := pendingAtomicTxs vm |}.

(** [issueTx] called once per transaction of a list, with the error of
    each call in order. *)
Fixpoint issueTxs (vm : VM) (txs : list Tx) : VM * list (option error) :=
  match txs with
  | [] => (vm, [])
  | tx :: rest =>
      let '(vm1, e) := issueTx vm tx in
      let '(vm2, es) := issueTxs vm1 rest in
      (vm2, e :: es)
  end.

(** What one [select] of [awaitSubmittedTxs] wakes up on. *)
Inductive SubmitWakeup : Type :=
| TxSubmitted
| AtomicTxSubmitted
| IdleTimeout
| ShutdownSubmit.

(** After one iteration the loop goes round again or has returned;
    [NotReady] marks a receive from [atomicTxSubmitChan] that the
    [select] cannot take because no signal is buffered. *)
Inductive Submitter : Type :=
| Running (vm : VM)
| Stopped (vm : VM)
| NotReady (vm : VM).

Definition submitterVM (s : Submitter) : VM :=
  match s with
  | Running vm | Stopped vm | NotReady vm => vm
  end.

(** One iteration of the loop of [awaitSubmittedTxs]; the error of
    [tryBlockGen] is dropped. *)
Definition awaitSubmittedTxs_step (vm : VM) (w : SubmitWakeup) : Submitter :=
  match w with
  | TxSubmitted => Running (fst (tryBlockGen vm))
  | AtomicTxSubmitted =>
      match Chan.try_recv (atomicTxSubmitChan vm) with
      | Some (_, c) =>
          Running (fst (tryBlockGen (set_atomicTxSubmitChan c vm)))
      | None => NotReady vm
      end
  | IdleTimeout => Running (fst (tryBlockGen vm))
  | ShutdownSubmit => Stopped vm
  end.

Fixpoint awaitSubmittedTxs (vm : VM) (ws : list SubmitWakeup) : Submitter :=
  match ws with
  | [] => Running vm
  | w :: rest =>
      match awaitSubmittedTxs_step vm w with
      | Running vm1 => awaitSubmittedTxs vm1 rest
      | halted => halted
      end
  end.

(** The calls that reach the scheduler between two builds, from the API
    ([issueTx]), from the submission loop, from the timer and from the
    chain, whose answers change as its pool does.  A list of calls may
    name iterations of the submission loop after it has returned; the
    loop would not run them, so such lists only add behaviours. *)
Inductive Call : Type :=
| CallIssueTx (tx : Tx)
| CallTryBlockGen
| CallWake (w : SubmitWakeup)
| CallTimer
| ChainMoves (ch : ETHChain).

Definition applyCall (vm : VM) (c : Call) : VM :=
  match c with
  | CallIssueTx tx => fst (issueTx vm tx)
  | CallTryBlockGen => fst (tryBlockGen vm)
  | CallWake w => submitterVM (awaitSubmittedTxs_step vm w)
  | CallTimer => blockDelayTimerHandler vm
  | ChainMoves ch => set_chain ch vm
  end.

Definition applyCalls (vm : VM) (calls : list Call) : VM :=
  fold_left applyCall calls vm.

Definition isTimer (c : Call) : bool :=
  match c with
  | CallTimer => true
  | _ => false
  end.

(** The engine's channel with one more [PendingTxs] queued. *)
Definition pushed (vm : VM) : Chan.t Message :=
  Chan.mk (Chan.buf (networkChan vm) ++ [PendingTxs])
          (Chan.cap (networkChan vm)).

Definition maxUTXOsToFetch : Z := 1024.

(** The first statement of [GetAtomicUTXOs]. *)
Definition utxoLimit (limit : Z) : Z :=
  if (limit <=? 0) || (limit >? maxUTXOsToFetch) then maxUTXOsToFetch
  else limit.

(** [fmt.Errorf(prefix + ": %w", err)] *)
Definition wrapError (prefix : string) (e : error) : error :=
  errForeign (prefix ++ ": " ++ Error e)%string.

(** What the address helpers read of [vm.ctx]. *)
Record snowContext : Type := {
  NetworkID : Z;
  ChainID : commonHash;
  Lookup : string -> result commonHash;
  PrimaryAlias : commonHash -> result string
}.

Section Services.

(** Collaborators of avalanchego and of the chain that vm.go calls:
    block lookup by hash, the shared-memory index, the UTXO decoder, the
    id conversions with their zero values, the address formatter and
    parser, the network's HRP and the [%q] verb of [fmt]. *)
Variable GetBlockByHash : commonHash -> option EthBlock.
Variable UTXO : Type.
Variable Indexed :
  commonHash -> list bytes -> bytes -> bytes -> Z ->
  result (list bytes * bytes * bytes).
Variable UnmarshalUTXO : bytes -> result UTXO.
Variable ToShortID : bytes -> result commonAddress.
Variable ToID : bytes -> result commonHash.
Variable ShortBytes : commonAddress -> bytes.
Variable IDBytes : commonHash -> bytes.
Variable ShortEmpty : commonAddress.
Variable Empty : commonHash.
Variable formattingParseAddress : string -> result (string * string * bytes).
Variable formattingFormatAddress : string -> string -> bytes -> result string.
Variable GetHRP : Z -> string.
Variable quoted : string -> string.
Variable quotedID : commonHash -> string.

(** The package's [errUnknownBlock], held by its message. *)
Definition errUnknownBlock : error := errForeign "unknown block".

Definition getBlock (id : commonHash) : result Block :=
  match GetBlockByHash id with
  | None => Err errUnknownBlock
  | Some ethBlock => Ok {| id := blockHash ethBlock; ethBlock := ethBlock |}
  end.

(** The decoding loop of [GetAtomicUTXOs]: it returns at the first
    element that does not decode. *)
Fixpoint parseUTXOs (allUTXOBytes : list bytes) : result (list UTXO) :=
  match allUTXOBytes with
  | [] => Ok []
  | utxoBytes :: rest =>
      match UnmarshalUTXO utxoBytes with
      | Err e => Err (wrapError "error parsing UTXO" e)
      | Ok utxo =>
          match parseUTXOs rest with
          | Err e => Err e
          | Ok utxos => Ok (utxo :: utxos)
          end
      end
  end.

(** [addrs] is [addrs.List()]. *)
Definition GetAtomicUTXOs (chainID : commonHash) (addrs : list commonAddress)
    (startAddr : commonAddress) (startUTXOID : commonHash) (limit : Z)
    : result (list UTXO * commonAddress * commonHash) :=
  let limit1 := utxoLimit limit in
  let addrsList := map ShortBytes addrs in
  match Indexed chainID addrsList (ShortBytes startAddr)
                (IDBytes startUTXOID) limit1 with
  | Err e => Err (wrapError "error fetching atomic UTXOs" e)
  | Ok (allUTXOBytes, lastAddr, lastUTXO) =>
      let lastAddrID :=
        match ToShortID lastAddr with Ok a => a | Err _ => ShortEmpty end in
      let lastUTXOID :=
        match ToID lastUTXO with Ok i => i | Err _ => Empty end in
      match parseUTXOs allUTXOBytes with
      | Err e => Err e
      | Ok utxos => Ok (utxos, lastAddrID, lastUTXOID)
      end
  end.

Definition ParseAddress (ctx : snowContext) (addrStr : string)
    : result (commonHash * commonAddress) :=
  match formattingParseAddress addrStr with
  | Err e => Err e
  | Ok (chainIDAlias, hrp, addrBytes) =>
      match Lookup ctx chainIDAlias with
      | Err e => Err e
      | Ok chainID =>
          let expectedHRP := GetHRP (NetworkID ctx) in
          if negb (String.eqb hrp expectedHRP) then
            Err (errForeign ("expected hrp " ++ quoted expectedHRP
                             ++ " but got " ++ quoted hrp)%string)
          else
            match ToShortID addrBytes with
            | Err e => Err e
            | Ok addr => Ok (chainID, addr)
            end
      end
  end.

Definition ParseLocalAddress (ctx : snowContext) (addrStr : string)
    : result commonAddress :=
  match ParseAddress ctx addrStr with
  | Err e => Err e
  | Ok (chainID, addr) =>
      if negb (chainID =? ChainID ctx) then
        Err (errForeign ("expected chainID to be " ++ quotedID (ChainID ctx)
                         ++ " but was " ++ quotedID chainID)%string)
      else Ok addr
  end.

Definition FormatAddress (ctx : snowContext) (chainID : commonHash)
    (addr : commonAddress) : result string :=
  match PrimaryAlias ctx chainID with
  | Err e => Err e
  | Ok chainIDAlias =>
      let hrp := GetHRP (NetworkID ctx) in
      formattingFormatAddress chainIDAlias hrp (ShortBytes addr)
  end.

Definition FormatLocalAddress (ctx : snowContext) (addr : commonAddress)
    : result string :=
  FormatAddress ctx (ChainID ctx) addr.

End Services.

Arguments parseUTXOs {UTXO} UnmarshalUTXO allUTXOBytes.
Arguments GetAtomicUTXOs {UTXO} Indexed UnmarshalUTXO ToShortID ToID
  ShortBytes IDBytes ShortEmpty Empty chainID addrs startAddr startUTXOID limit.

(** ** Everything that happens to a VM

    The calls above together with the chain's callbacks, the builder and
    the stabilisation listener, so that a history of a VM is a list. *)
Inductive Event : Type :=
| EvCall (c : Call)
| EvAssemble (state : StateDB) (ordinary : nat)
| EvSeal (block : EthBlock)
| EvBuild
| EvListen (w : Wakeup).

Definition react (BlockVerify : VM -> Block -> option error) (vm : VM)
    (e : Event) : VM :=
  match e with
  | EvCall c => applyCall vm c
  | EvAssemble state ordinary =>
      fst (fst (onFinalizeAndAssemble vm state (repeat tt ordinary)))
  | EvSeal block => fst (onSealFinish BlockVerify vm block)
  | EvBuild => fst (buildBlock vm)
  | EvListen w => listenerVM (awaitTxPoolStabilized_step vm w)
  end.

Definition history (BlockVerify : VM -> Block -> option error) (vm : VM)
    (events : list Event) : VM :=
  fold_left (react BlockVerify) events vm.

(** The three buffered channels the VM creates hold no more than they
    were made for. *)
Definition channelsBounded (vm : VM) : Prop :=
  Chan.cap (pendingAtomicTxs vm) = pendingAtomicTxsCap
  /\ (Chan.len (pendingAtomicTxs vm) <= pendingAtomicTxsCap)%nat
  /\ Chan.cap (atomicTxSubmitChan vm) = 1%nat
  /\ (Chan.len (atomicTxSubmitChan vm) <= 1)%nat
  /\ Chan.cap (txPoolStabilizedOk vm) = 1%nat
  /\ (Chan.len (txPoolStabilizedOk vm) <= 1)%nat.

(** ** A chain that cannot report its pool, and a busy engine

    A VM whose chain fails the pending-size query, and one whose engine
    channel, of capacity one, still holds the previous notification. *)
Module Trouble.

Definition poolError : error := errForeign "pending size unavailable".

Definition failingChain : ETHChain :=
  {| PendingSize := Err poolError;
     VerifyBlock := fun _ => true;
     BlockState := fun _ => Ok Sample.state |}.

Definition vmFailing : VM := set_chain failingChain (Sample.vm 5 1).

Definition busyEngine : Chan.t Message := Chan.mk [PendingTxs] 1.

Definition vmBusy : VM := set_networkChan busyEngine (Sample.vm 5 1).

End Trouble.

(** ** Concrete collaborators for the services

    A chain with the alias [C] on a network whose HRP is [local], one
    address string that parses, and a shared memory holding two UTXOs of
    one byte each, decoded as that byte. *)
Module Wire.

Definition ctx : snowContext :=
  {| NetworkID := 12345;
     ChainID := 5;
     Lookup := fun alias =>
       if String.eqb alias "C" then Ok 5
       else Err (errForeign "there is no ID with alias");
     PrimaryAlias := fun c =>
       if c =? 5 then Ok "C"%string
       else Err (errForeign "there is no alias for ID") |}.

Definition hrp (networkID : Z) : string := "local".

Definition parseAddr (s : string) : result (string * string * bytes) :=
  if String.eqb s "C-local1qy" then Ok ("C"%string, "local"%string, [Byte.x01])
  else Err (errForeign "no separator found in address").

Definition formatAddr (alias hrp : string) (b : bytes) : result string :=
  match b with
  | [Byte.x01] => Ok (alias ++ "-" ++ hrp ++ "1qy")%string
  | _ => Err (errForeign "invalid address bytes")
  end.

Definition toShortID (b : bytes) : result commonAddress :=
  match b with
  | [Byte.x01] => Ok 1
  | _ => Err (errForeign "bad short id length")
  end.

Definition toID (b : bytes) : result commonHash :=
  match b with
  | [Byte.x02] => Ok 2
  | _ => Err (errForeign "bad id length")
  end.

Definition shortBytes (a : commonAddress) : bytes := [Byte.x01].
Definition idBytes (i : commonHash) : bytes := [Byte.x02].

Definition indexed (chainID : commonHash) (addrs : list bytes)
    (startAddr startUTXO : bytes) (limit : Z)
    : result (list bytes * bytes * bytes) :=
  if limit =? 1024 then Ok ([[Byte.x0a]; [Byte.x0b]], [Byte.x01], [])
  else Ok ([[Byte.x0a]], [Byte.x01], []).

Definition unmarshalUTXO (b : bytes) : result Byte.byte :=
  match b with
  | [x] => Ok x
  | _ => Err (errForeign "unexpected length")
  end.

Definition chainBlocks (h : commonHash) : option EthBlock :=
  if h =? 2000 then Some Sample.sealed else None.

End Wire.

(** * Properties *)

(** ** Channels *)

Lemma chan_full_spec {A : Type} (c : Chan.t A) :
  Chan.full c = true <-> (Chan.cap c <= Chan.len c)%nat.
Proof. unfold Chan.full. apply Nat.leb_le. Qed.

Lemma chan_try_send_full {A : Type} (c : Chan.t A) (x : A) :
  Chan.full c = true -> Chan.try_send c x = None.
Proof. unfold Chan.try_send. intros ->. reflexivity. Qed.

Lemma chan_try_send_room {A : Type} (c : Chan.t A) (x : A) :
  Chan.full c = false ->
  Chan.try_send c x = Some (Chan.mk (Chan.buf c ++ [x]) (Chan.cap c)).
Proof. unfold Chan.try_send. intros ->. reflexivity. Qed.

Lemma chan_try_send_bound {A : Type} (c c' : Chan.t A) (x : A) :
  Chan.try_send c x = Some c' ->
  Chan.len c' = S (Chan.len c) /\ (Chan.len c' <= Chan.cap c')%nat.
Proof.
  unfold Chan.try_send. destruct (Chan.full c) eqn:F; [discriminate|].
  intros E. injection E as <-. unfold Chan.len; simpl.
  rewrite length_app; simpl. split; [lia|].
  unfold Chan.full, Chan.len in F. apply Nat.leb_gt in F. lia.
Qed.

Lemma chan_try_recv_head {A : Type} (c c' : Chan.t A) (x : A) :
  Chan.try_recv c = Some (x, c') ->
  Chan.buf c = x :: Chan.buf c' /\ Chan.cap c' = Chan.cap c.
Proof.
  unfold Chan.try_recv. destruct (Chan.buf c) as [|y r] eqn:B; [discriminate|].
  intros E. injection E as <- <-. simpl. auto.
Qed.

Lemma chan_eta {A : Type} (c : Chan.t A) :
  Chan.mk (Chan.buf c) (Chan.cap c) = c.
Proof. destruct c; reflexivity. Qed.

(** ** Atomic transaction queue *)

Lemma set_atomicTxSubmitChan_same (vm : VM) :
  set_atomicTxSubmitChan (atomicTxSubmitChan vm) vm = vm.
Proof. destruct vm; reflexivity. Qed.

(** C4: [issueTx] on the queue that [Initialize] creates with capacity
    1024.  With a free slot the transaction is appended to the queue, the
    wake signal is posted if its single slot is free and left as it is
    otherwise, nothing else changes and nil is returned.  With a full
    queue the error "too many pending atomic txs" is returned and the VM,
    queue and signal channel included, is exactly what it was. *)
Theorem issueTx_admission (vm : VM) (tx : Tx) :
  (forall avax ch cdc genesis accepted toEngine,
      Chan.cap (pendingAtomicTxs
                  (Initialize avax ch cdc genesis accepted toEngine)) = 1024%nat)
  /\ (Chan.full (pendingAtomicTxs vm) = false ->
      exists sig : Chan.t unit,
        issueTx vm tx =
          (set_atomicTxSubmitChan sig
             (set_pendingAtomicTxs
                (Chan.mk (Chan.buf (pendingAtomicTxs vm) ++ [tx])
                         (Chan.cap (pendingAtomicTxs vm))) vm), None)
        /\ sig = (if Chan.full (atomicTxSubmitChan vm)
                  then atomicTxSubmitChan vm
                  else Chan.mk (Chan.buf (atomicTxSubmitChan vm) ++ [tt])
                               (Chan.cap (atomicTxSubmitChan vm))))
  /\ (Chan.full (pendingAtomicTxs vm) = true ->
      issueTx vm tx = (vm, Some errTooManyAtomicTx)
      /\ Error errTooManyAtomicTx = "too many pending atomic txs"%string).
Proof.
  split; [reflexivity|]. split.
  - intros Hroom. unfold issueTx.
    rewrite (chan_try_send_room _ _ Hroom).
    set (vm1 := set_pendingAtomicTxs _ vm).
    change (atomicTxSubmitChan vm1) with (atomicTxSubmitChan vm).
    destruct (Chan.full (atomicTxSubmitChan vm)) eqn:Hsig.
    + rewrite (chan_try_send_full _ _ Hsig).
      exists (atomicTxSubmitChan vm). split; [|reflexivity].
      change (atomicTxSubmitChan vm) with (atomicTxSubmitChan vm1).
      now rewrite set_atomicTxSubmitChan_same.
    + rewrite (chan_try_send_room _ _ Hsig). eauto.
  - intros Hfull. unfold issueTx.
    rewrite (chan_try_send_full _ _ Hfull). split; reflexivity.
Qed.

Lemma issueTx_admission_witness :
  (exists vm', issueTx (Sample.vm 0 1) (Sample.tx []) = (vm', None)
               /\ Chan.buf (pendingAtomicTxs vm') = [Sample.tx []]
               /\ Chan.buf (atomicTxSubmitChan vm') = [tt])
  /\ issueTx (set_pendingAtomicTxs Sample.fullQueue (Sample.vm 0 1))
             (Sample.tx [])
     = (set_pendingAtomicTxs Sample.fullQueue (Sample.vm 0 1),
        Some errTooManyAtomicTx).
Proof.
  split.
  - destruct (issueTx_admission (Sample.vm 0 1) (Sample.tx []))
      as (_ & Hroom & _).
    destruct (Hroom eq_refl) as (sig & Heq & Hsig).
    rewrite Heq, Hsig. eexists. split; [reflexivity|]. split; reflexivity.
  - apply (issueTx_admission
             (set_pendingAtomicTxs Sample.fullQueue (Sample.vm 0 1))).
    reflexivity.
Defined.

(** The queue never holds more than its capacity, whatever is
    submitted. *)
Lemma issueTx_bounded (vm : VM) (tx : Tx) :
  (Chan.len (pendingAtomicTxs vm) <= Chan.cap (pendingAtomicTxs vm))%nat ->
  (Chan.len (pendingAtomicTxs (fst (issueTx vm tx)))
   <= Chan.cap (pendingAtomicTxs (fst (issueTx vm tx))))%nat
  /\ Chan.cap (pendingAtomicTxs (fst (issueTx vm tx)))
     = Chan.cap (pendingAtomicTxs vm).
Proof.
  intros Hle. unfold issueTx.
  destruct (Chan.try_send (pendingAtomicTxs vm) tx) as [q|] eqn:Hs; simpl.
  - destruct (chan_try_send_bound _ _ _ Hs) as [_ Hb].
    assert (Hc : Chan.cap q = Chan.cap (pendingAtomicTxs vm)).
    { unfold Chan.try_send in Hs.
      destruct (Chan.full (pendingAtomicTxs vm)); [discriminate|].
      injection Hs as <-. reflexivity. }
    destruct (Chan.try_send _ tt); simpl; auto.
  - auto.
Qed.

(** ** Finalize-and-assemble *)

(** C1: one call of the finalize-and-assemble callback takes at most one
    transaction off the pending queue: either the queue is untouched and
    the returned extra-data is empty, or exactly the head was taken and
    the extra-data is empty or the encoding of that one transaction. *)
Theorem onFinalizeAndAssemble_dequeues_at_most_one
    (T : Type) (vm : VM) (state : StateDB) (txs : list T) :
  let '(vm', _, out) := onFinalizeAndAssemble vm state txs in
  (pendingAtomicTxs vm' = pendingAtomicTxs vm
   /\ exists err, out = Ret ([], err))
  \/ (exists atx,
        Chan.buf (pendingAtomicTxs vm) = atx :: Chan.buf (pendingAtomicTxs vm')
        /\ (out = Panic
            \/ (exists err, out = Ret ([], Some err))
            \/ out = Ret (marshalRaw vm atx, None))).
Proof.
  unfold onFinalizeAndAssemble.
  destruct (Chan.try_recv (pendingAtomicTxs vm)) as [[atx q]|] eqn:Hr.
  - destruct (chan_try_recv_head _ _ _ Hr) as [Hbuf _].
    destruct (UnsignedTx atx) as [u| |].
    + destruct (EVMStateTransfer u state) as [state1 [err|]];
        right; exists atx; (split; [exact Hbuf|]); eauto.
    + right; exists atx; split; [exact Hbuf|]; auto.
    + right; exists atx; split; [exact Hbuf|]; auto.
  - destruct txs; left; split; eauto.
Qed.

(** In lengths: the queue shrinks by at most one. *)
Lemma onFinalizeAndAssemble_len
    (T : Type) (vm : VM) (state : StateDB) (txs : list T) :
  (Chan.len (pendingAtomicTxs vm)
   <= S (Chan.len (pendingAtomicTxs
                     (fst (fst (onFinalizeAndAssemble vm state txs))))))%nat.
Proof.
  unfold onFinalizeAndAssemble.
  destruct (Chan.try_recv (pendingAtomicTxs vm)) as [[atx q]|] eqn:Hr.
  - destruct (chan_try_recv_head _ _ _ Hr) as [Hbuf _].
    unfold Chan.len. rewrite Hbuf.
    destruct (UnsignedTx atx) as [u| |]; simpl; try lia.
    destruct (EVMStateTransfer u state) as [state1 [err|]]; simpl; lia.
  - destruct txs; simpl; lia.
Qed.

(** ** Block production scheduler *)

(** [tryBlockGen] never touches the timer or the timer state. *)
Lemma tryBlockGen_timer (vm : VM) :
  bdTimerState (fst (tryBlockGen vm)) = bdTimerState vm
  /\ blockDelayTimer (fst (tryBlockGen vm)) = blockDelayTimer vm.
Proof.
  unfold tryBlockGen, notifyEngine.
  destruct (bdGenFlag vm); [auto|].
  destruct (PendingSize _) as [size|e]; [|auto].
  destruct (_ && _); [auto|].
  cbn [bdTimerState set_bdGenWaitFlag].
  destruct (bdTimerState vm) eqn:Hst; cbn; auto.
  - destruct (size <? batchSize); [cbn; auto|].
    destruct (Chan.try_send _ _); cbn; auto.
  - destruct (Chan.try_send _ _); cbn; auto.
Qed.

(** C5: [tryBlockGen].  With a generation in flight nothing changes.
    Otherwise the wait flag is set, before the pool is asked for its
    size: when that query fails, its error is returned and nothing but
    the wait flag has changed.  When it answers [size]: with no ordinary
    and no atomic transaction pending nothing else happens; in state Min
    nothing is sent; in state Max the notification is attempted exactly
    when [size] is at least the batch size 250; in state Long it is
    attempted.  The attempt is a non-blocking push of [PendingTxs]: with
    room it is queued for the engine and the in-flight flag is set, with
    a full channel the result is the too-frequent-block-issuance error
    and the in-flight flag stays clear. *)
Theorem tryBlockGen_decision (vm : VM) :
  let vm1 := set_bdGenWaitFlag true vm in
  let attempt :=
    if Chan.full (networkChan vm)
    then (vm1, Some errBlockFrequency)
    else (set_bdGenFlag true
            (set_networkChan
               (Chan.mk (Chan.buf (networkChan vm) ++ [PendingTxs])
                        (Chan.cap (networkChan vm))) vm1), None) in
  (bdGenFlag vm = true -> tryBlockGen vm = (vm, None))
  /\ (bdGenFlag vm = false ->
      forall size, PendingSize (chain vm) = Ok size ->
        (size = 0 /\ Chan.len (pendingAtomicTxs vm) = 0%nat ->
         tryBlockGen vm = (vm1, None))
        /\ (~ (size = 0 /\ Chan.len (pendingAtomicTxs vm) = 0%nat) ->
            tryBlockGen vm =
              match bdTimerState vm with
              | bdTimerStateMin => (vm1, None)
              | bdTimerStateMax => if 250 <=? size then attempt else (vm1, None)
              | bdTimerStateLong => attempt
              end))
  /\ (bdTimerState vm = bdTimerStateMin ->
      networkChan (fst (tryBlockGen vm)) = networkChan vm)
  /\ (Chan.full (networkChan vm) = true ->
      networkChan (fst (tryBlockGen vm)) = networkChan vm
      /\ bdGenFlag (fst (tryBlockGen vm)) = bdGenFlag vm)
  /\ (bdGenFlag vm = false ->
      forall e, PendingSize (chain vm) = Err e ->
        tryBlockGen vm = (vm1, Some e)).
Proof.
  intros vm1 attempt.
  assert (Hnotify : notifyEngine vm1 = attempt).
  { unfold notifyEngine, attempt, Chan.try_send.
    change (networkChan vm1) with (networkChan vm).
    destruct (Chan.full (networkChan vm)); reflexivity. }
  split; [|split; [|split; [|split]]].
  - intros Hflag. unfold tryBlockGen. now rewrite Hflag.
  - intros Hflag size Hsize. unfold tryBlockGen. rewrite Hflag.
    fold vm1. change (chain vm1) with (chain vm). rewrite Hsize.
    change (pendingAtomicTxs vm1) with (pendingAtomicTxs vm).
    change (bdTimerState vm1) with (bdTimerState vm).
    split.
    + intros [-> ->]. reflexivity.
    + intros Hwork.
      destruct ((size =? 0) && Nat.eqb (Chan.len (pendingAtomicTxs vm)) 0)
        eqn:Hnone.
      * exfalso. apply Hwork. apply andb_true_iff in Hnone as [H1 H2].
        apply Z.eqb_eq in H1. apply Nat.eqb_eq in H2. auto.
      * rewrite Hnotify. destruct (bdTimerState vm); try reflexivity.
        unfold batchSize.
        destruct (size <? 250) eqn:Hlt, (250 <=? size) eqn:Hle;
          try reflexivity; lia.
  - intros Hmin. unfold tryBlockGen.
    destruct (bdGenFlag vm); [reflexivity|]. fold vm1.
    destruct (PendingSize (chain vm1)); [|reflexivity].
    destruct (_ && _); [reflexivity|].
    change (bdTimerState vm1) with (bdTimerState vm). rewrite Hmin.
    reflexivity.
  - intros Hfull. unfold tryBlockGen.
    destruct (bdGenFlag vm) eqn:Hflag; [auto|]. fold vm1.
    destruct (PendingSize (chain vm1)) as [size|e]; [|cbn; auto].
    destruct (_ && _); [cbn; auto|].
    rewrite Hnotify. unfold attempt. rewrite Hfull.
    destruct (bdTimerState vm1); [| destruct (size <? batchSize) |];
      cbn; auto.
  - intros Hflag e Hsize. unfold tryBlockGen. rewrite Hflag.
    fold vm1. change (chain vm1) with (chain vm). now rewrite Hsize.
Qed.

Lemma tryBlockGen_decision_witness :
  tryBlockGen (set_bdGenFlag true (Sample.vm 5 1))
    = (set_bdGenFlag true (Sample.vm 5 1), None)
  /\ tryBlockGen (Sample.vm 0 1) = (Sample.vm 0 1, None)
  /\ Chan.buf (networkChan (fst (tryBlockGen (Sample.vm 5 1)))) = [PendingTxs]
  /\ networkChan
       (fst (tryBlockGen (set_bdTimerState bdTimerStateMin (Sample.vm 5 1))))
     = Chan.make 1
  /\ tryBlockGen Trouble.vmBusy
     = (set_bdGenWaitFlag true Trouble.vmBusy, Some errBlockFrequency)
  /\ (networkChan (fst (tryBlockGen Trouble.vmBusy)) = Trouble.busyEngine
      /\ bdGenFlag (fst (tryBlockGen Trouble.vmBusy)) = false)
  /\ tryBlockGen
       (set_bdGenWaitFlag false
          (set_bdTimerState bdTimerStateMin Trouble.vmFailing))
     = (set_bdTimerState bdTimerStateMin Trouble.vmFailing,
        Some Trouble.poolError).
Proof.
  split; [|split; [|split; [|split; [|split; [|split]]]]].
  - apply (tryBlockGen_decision (set_bdGenFlag true (Sample.vm 5 1))).
    reflexivity.
  - destruct (tryBlockGen_decision (Sample.vm 0 1)) as (_ & H & _).
    destruct (H eq_refl 0 eq_refl) as [H0 _].
    rewrite H0 by (split; reflexivity). reflexivity.
  - destruct (tryBlockGen_decision (Sample.vm 5 1)) as (_ & H & _).
    destruct (H eq_refl 5 eq_refl) as [_ H1].
    rewrite H1; [reflexivity|]. intros [H5 _]. discriminate H5.
  - destruct (tryBlockGen_decision
                (set_bdTimerState bdTimerStateMin (Sample.vm 5 1)))
      as (_ & _ & H & _).
    rewrite H; reflexivity.
  - destruct (tryBlockGen_decision Trouble.vmBusy) as (_ & H & _).
    destruct (H eq_refl 5 eq_refl) as [_ H1].
    rewrite H1; [reflexivity|]. intros [H5 _]. discriminate H5.
  - destruct (tryBlockGen_decision Trouble.vmBusy) as (_ & _ & _ & H & _).
    apply H. reflexivity.
  - destruct (tryBlockGen_decision
                (set_bdGenWaitFlag false
                   (set_bdTimerState bdTimerStateMin Trouble.vmFailing)))
      as (_ & _ & _ & _ & H).
    rewrite (H eq_refl Trouble.poolError eq_refl). reflexivity.
Defined.

Lemma maxDuration_max (x y : Z) : maxDuration x y = Z.max x y.
Proof. unfold maxDuration. destruct (x >? y) eqn:H; lia. Qed.

Lemma timerSwitch_flag (vm : VM) : snd (timerSwitch vm) = bdGenWaitFlag vm.
Proof. unfold timerSwitch. destruct (bdTimerState vm); reflexivity. Qed.

(** C7: the timer machine.  [Initialize] leaves the state at Long.  A
    fire in Min moves to Max and re-arms the timer for
    [max (maxBlockTime - minBlockTime) 0]; a fire in Max moves to Long
    and leaves the timer as it was; a fire in Long changes neither.  In
    every case the handler then runs [tryBlockGen] on the switched VM
    when the wait flag was set, and does nothing more when it was not. *)
Theorem blockDelayTimer_fire (vm : VM) :
  (forall avax ch cdc genesis accepted toEngine,
      bdTimerState (Initialize avax ch cdc genesis accepted toEngine)
      = bdTimerStateLong)
  /\ (bdTimerState vm = bdTimerStateMin ->
      fst (timerSwitch vm)
      = SetTimeoutIn (Z.max (maxBlockTime - minBlockTime) 0)
          (set_bdTimerState bdTimerStateMax vm)
      /\ bdTimerState (blockDelayTimerHandler vm) = bdTimerStateMax
      /\ blockDelayTimer (blockDelayTimerHandler vm)
         = Some (Z.max (maxBlockTime - minBlockTime) 0))
  /\ (bdTimerState vm = bdTimerStateMax ->
      fst (timerSwitch vm) = set_bdTimerState bdTimerStateLong vm
      /\ bdTimerState (blockDelayTimerHandler vm) = bdTimerStateLong
      /\ blockDelayTimer (blockDelayTimerHandler vm) = blockDelayTimer vm)
  /\ (bdTimerState vm = bdTimerStateLong ->
      fst (timerSwitch vm) = vm
      /\ bdTimerState (blockDelayTimerHandler vm) = bdTimerStateLong
      /\ blockDelayTimer (blockDelayTimerHandler vm) = blockDelayTimer vm)
  /\ blockDelayTimerHandler vm
     = (if bdGenWaitFlag vm
        then fst (tryBlockGen (fst (timerSwitch vm)))
        else fst (timerSwitch vm)).
Proof.
  assert (Hhandler : blockDelayTimerHandler vm
                     = if bdGenWaitFlag vm
                       then fst (tryBlockGen (fst (timerSwitch vm)))
                       else fst (timerSwitch vm)).
  { unfold blockDelayTimerHandler.
    pose proof (timerSwitch_flag vm) as Hf.
    destruct (timerSwitch vm) as [vm1 again]. simpl in *. now subst. }
  assert (Hfields :
            bdTimerState (blockDelayTimerHandler vm)
            = bdTimerState (fst (timerSwitch vm))
            /\ blockDelayTimer (blockDelayTimerHandler vm)
               = blockDelayTimer (fst (timerSwitch vm))).
  { rewrite Hhandler. destruct (bdGenWaitFlag vm); [|auto].
    apply tryBlockGen_timer. }
  destruct Hfields as [Hs Ht]. rewrite Hs, Ht.
  split; [reflexivity|].
  unfold timerSwitch. rewrite <- maxDuration_max.
  split; [|split; [|split; [|exact Hhandler]]];
    intros Hst; rewrite Hst; cbn; repeat split; auto.
Qed.

Lemma blockDelayTimer_fire_witness :
  blockDelayTimer
    (blockDelayTimerHandler (set_bdTimerState bdTimerStateMin (Sample.vm 5 1)))
  = Some 750000000
  /\ bdTimerState
       (blockDelayTimerHandler
          (set_bdTimerState bdTimerStateMax (Sample.vm 5 1)))
     = bdTimerStateLong
  /\ blockDelayTimer (blockDelayTimerHandler (Sample.vm 5 1)) = None.
Proof.
  split; [|split].
  - destruct (blockDelayTimer_fire
                (set_bdTimerState bdTimerStateMin (Sample.vm 5 1)))
      as (_ & H & _).
    destruct (H eq_refl) as (_ & _ & Ht). rewrite Ht. reflexivity.
  - destruct (blockDelayTimer_fire
                (set_bdTimerState bdTimerStateMax (Sample.vm 5 1)))
      as (_ & _ & H & _).
    destruct (H eq_refl) as (_ & Hs & _). exact Hs.
  - destruct (blockDelayTimer_fire (Sample.vm 5 1)) as (_ & _ & _ & H & _).
    destruct (H eq_refl) as (_ & _ & Ht). rewrite Ht. reflexivity.
Defined.

(** ** buildBlock *)

(** A build that yields a block resets the scheduler before it waits for
    the pool: state Min, both flags clear, timer armed for
    [minBlockTime]. *)
Lemma buildBlock_success_resets (vm : VM) (blk : Block)
    (rest : list (option Block)) :
  newBlockChan vm = Some blk :: rest ->
  let vm' := fst (buildBlock vm) in
  bdTimerState vm' = bdTimerStateMin
  /\ bdGenWaitFlag vm' = false
  /\ bdGenFlag vm' = false
  /\ blockDelayTimer vm' = Some minBlockTime
  /\ (snd (buildBlock vm) = Built blk
      \/ snd (buildBlock vm) = AwaitStabilized blk).
Proof.
  intros Hch. unfold buildBlock. rewrite Hch.
  destruct (Chan.try_recv _) as [[u c]|]; cbn; auto 10.
Qed.

(** A build that yields no block returns before the reset: apart from
    the consumed [nil] the VM is what it was. *)
Lemma buildBlock_failure_returns_early (vm : VM)
    (rest : list (option Block)) :
  newBlockChan vm = None :: rest ->
  buildBlock vm = (set_newBlockChan rest vm, Failed errCreateBlock).
Proof. intros Hch. unfold buildBlock. now rewrite Hch. Qed.

(** C6, evaluated on a failed build: the engine was notified from state
    Long (in-flight and wait flags set, timer not armed), the assembly
    found nothing to include and handed over [nil], and [buildBlock]
    returns "couldn't create block" with the state still Long, both flags
    still set and the timer still not armed; from then on [tryBlockGen]
    does nothing. *)
Theorem buildBlock_failed_build_keeps_scheduler :
  newBlockChan Sample.emptyAssembly = [None]
  /\ snd (buildBlock Sample.emptyAssembly) = Failed errCreateBlock
  /\ bdTimerState (fst (buildBlock Sample.emptyAssembly)) = bdTimerStateLong
  /\ bdGenFlag (fst (buildBlock Sample.emptyAssembly)) = true
  /\ bdGenWaitFlag (fst (buildBlock Sample.emptyAssembly)) = true
  /\ blockDelayTimer (fst (buildBlock Sample.emptyAssembly)) = None
  /\ tryBlockGen (fst (buildBlock Sample.emptyAssembly))
     = (fst (buildBlock Sample.emptyAssembly), None).
Proof. repeat split. Qed.

(** Once the in-flight flag is left set, no trigger clears it: submitting
    an atomic transaction, a proposal attempt and a timer fire all keep
    it, and none of them notifies the engine. *)
Lemma bdGenFlag_stuck (vm : VM) (tx : Tx) :
  bdGenFlag vm = true ->
  (bdGenFlag (fst (issueTx vm tx)) = true
   /\ networkChan (fst (issueTx vm tx)) = networkChan vm)
  /\ (bdGenFlag (fst (tryBlockGen vm)) = true
      /\ networkChan (fst (tryBlockGen vm)) = networkChan vm)
  /\ (bdGenFlag (blockDelayTimerHandler vm) = true
      /\ networkChan (blockDelayTimerHandler vm) = networkChan vm).
Proof.
  intros Hflag. split; [|split].
  - unfold issueTx. destruct (Chan.try_send _ tx); [|auto].
    destruct (Chan.try_send _ tt); cbn; auto.
  - unfold tryBlockGen. rewrite Hflag. auto.
  - unfold blockDelayTimerHandler, timerSwitch.
    destruct (bdTimerState vm); cbn;
      destruct (bdGenWaitFlag vm); cbn; auto;
      unfold tryBlockGen; cbn; rewrite Hflag; cbn; auto.
Qed.

(** ** parseBlock *)

Section ParseBlock.

Variable rlpDecodeBlock : bytes -> result EthBlock.
Variable BlackholeAddr : commonAddress.

(** C9: [parseBlock] is total: on every byte string it yields a block or
    an error.  It yields a block exactly when the bytes decode to a
    block that the chain verifies and that is the genesis block (by
    hash) or has the burn address as coinbase, and the block returned
    wraps the decoded one under its hash; otherwise it yields the
    decoder's error when decoding failed and [errInvalidBlock] in every
    other case. *)
Theorem parseBlock_total (vm : VM) (b : bytes) :
  match parseBlock rlpDecodeBlock BlackholeAddr vm b with
  | Ok blk =>
      exists eth,
        rlpDecodeBlock b = Ok eth
        /\ VerifyBlock (chain vm) eth = true
        /\ (blockHash eth = genesisHash vm
            \/ blockCoinbase eth = BlackholeAddr)
        /\ blk = {| id := blockHash eth; ethBlock := eth |}
  | Err e =>
      rlpDecodeBlock b = Err e
      \/ (e = errInvalidBlock
          /\ exists eth,
               rlpDecodeBlock b = Ok eth
               /\ (VerifyBlock (chain vm) eth = false
                   \/ (blockHash eth <> genesisHash vm
                       /\ blockCoinbase eth <> BlackholeAddr)))
  end.
Proof.
  unfold parseBlock.
  destruct (rlpDecodeBlock b) as [eth|e]; [|left; reflexivity].
  destruct (VerifyBlock (chain vm) eth) eqn:Hv; cbn.
  - destruct (blockHash eth =? genesisHash vm) eqn:Hg; cbn.
    + apply Z.eqb_eq in Hg. exists eth. auto.
    + destruct (blockCoinbase eth =? BlackholeAddr) eqn:Hc; cbn.
      * apply Z.eqb_eq in Hc. exists eth. auto.
      * apply Z.eqb_neq in Hg, Hc. right. split; [reflexivity|].
        exists eth. auto.
  - right. split; [reflexivity|]. exists eth. auto.
Qed.

(** The converse direction, as an equation. *)
Lemma parseBlock_accepts (vm : VM) (b : bytes) (eth : EthBlock) :
  rlpDecodeBlock b = Ok eth ->
  VerifyBlock (chain vm) eth = true ->
  blockHash eth = genesisHash vm \/ blockCoinbase eth = BlackholeAddr ->
  parseBlock rlpDecodeBlock BlackholeAddr vm b
  = Ok {| id := blockHash eth; ethBlock := eth |}.
Proof.
  intros Hd Hv Hc. unfold parseBlock. rewrite Hd, Hv. cbn.
  destruct Hc as [Hg|Hb].
  - apply Z.eqb_eq in Hg. rewrite Hg. reflexivity.
  - apply Z.eqb_eq in Hb. rewrite Hb.
    now rewrite andb_false_r.
Qed.

End ParseBlock.

(** ** Extra state change *)

(** C10: when the extra-data of a block does not decode as an atomic
    transaction, [extractAtomicTx] yields nil and the extra-state-change
    callback returns a nil error with the state it was given. *)
Theorem onExtraStateChange_undecodable (vm : VM) (block : EthBlock)
    (state : StateDB) (e : error) :
  Unmarshal (codec vm) (blockExtraData block) = Err e ->
  extractAtomicTx vm block = None
  /\ onExtraStateChange vm block state = (state, Ret None).
Proof.
  intros Hdec. unfold onExtraStateChange, extractAtomicTx.
  rewrite Hdec. split; reflexivity.
Qed.

Lemma onExtraStateChange_undecodable_witness :
  extractAtomicTx (Sample.vm 0 1) Sample.sealed = None
  /\ onExtraStateChange (Sample.vm 0 1) Sample.sealed Sample.state
     = (Sample.state, Ret None).
Proof.
  apply (onExtraStateChange_undecodable (Sample.vm 0 1) Sample.sealed
           Sample.state (errForeign "unexpected end of input")).
  reflexivity.
Defined.

(** When it does decode, the decoded transaction's transfer is what the
    callback runs. *)
Lemma onExtraStateChange_decodable (vm : VM) (block : EthBlock)
    (state : StateDB) (atx : Tx) (u : UnsignedAtomicTx) :
  Unmarshal (codec vm) (blockExtraData block) = Ok atx ->
  UnsignedTx (Sign (codec vm) atx) = IsAtomic u ->
  onExtraStateChange vm block state
  = (fst (EVMStateTransfer u state), Ret (snd (EVMStateTransfer u state))).
Proof.
  intros Hdec Hu. unfold onExtraStateChange, extractAtomicTx.
  rewrite Hdec, Hu. now destruct (EVMStateTransfer u state).
Qed.

(** ** Tx-pool stabilisation *)

Lemma awaitTxPoolStabilized_step_other (vm : VM) (w : Wakeup) :
  minedHash w <> Some (txPoolStabilizedHead vm) ->
  awaitTxPoolStabilized_step vm w = Continue vm
  \/ awaitTxPoolStabilized_step vm w = Exited vm.
Proof.
  intros Hne. destruct w as [[[block|]|] [|]|]; cbn in *; auto.
  destruct (txPoolStabilizedHead vm =? blockHash block) eqn:Heq; auto.
  apply Z.eqb_eq in Heq. congruence.
Qed.

Lemma awaitTxPoolStabilized_other (ws : list Wakeup) (vm : VM) :
  Forall (fun w => minedHash w <> Some (txPoolStabilizedHead vm)) ws ->
  listenerVM (awaitTxPoolStabilized vm ws) = vm.
Proof.
  induction ws as [|w ws IH]; intros Hall; [reflexivity|].
  inversion Hall as [|? ? Hw Hws]; subst. cbn.
  destruct (awaitTxPoolStabilized_step_other vm w Hw) as [-> | ->];
    [apply IH; assumption | reflexivity].
Qed.

(** The zero hash is the mark of "no expected head": the listener
    clears the head by assigning it, and compares without telling the
    two apart.  A block whose hash were the zero value would therefore
    match a cleared or never-set head, here on a VM fresh from
    [Initialize] and again after the clear.  Block hashes are Keccak-256
    digests, so no such event reaches the listener; the statements below
    about a second event leave that hash out. *)
Lemma zero_hash_event_posts_twice :
  let ev := Recv (Some (NewMinedBlockEvent Sample.zeroBlock)) true in
  exists vm1 vm2,
    awaitTxPoolStabilized_step (Sample.vm 0 1) ev = Continue vm1
    /\ Chan.buf (txPoolStabilizedOk vm1) = [tt]
    /\ txPoolStabilizedHead vm1 = zeroHash
    /\ awaitTxPoolStabilized_step
         (set_txPoolStabilizedOk (Chan.make 1) vm1) ev = Continue vm2
    /\ Chan.buf (txPoolStabilizedOk vm2) = [tt].
Proof. do 2 eexists. repeat split. Qed.



(** ** Fund selection *)

Lemma uint64_range (z : Z) : 0 <= uint64 z < 2 ^ 64.
Proof. unfold uint64. apply Z.mod_pos_bound. lia. Qed.

Lemma uint64_small (z : Z) : 0 <= z < 2 ^ 64 -> uint64 z = z.
Proof. unfold uint64. intros H. now apply Z.mod_small. Qed.

Lemma assetBalance_range (vm : VM) (state : StateDB) (assetID : commonHash)
    (addr : commonAddress) :
  0 <= assetBalance vm state assetID addr < 2 ^ 64.
Proof.
  unfold assetBalance. destruct (assetID =? AVAXAssetID vm);
    apply uint64_range.
Qed.

Section FundSelection.

Variable PrivateKey : Type.
Variable GetEthAddress : PrivateKey -> commonAddress.
Variables balance nonce : PrivateKey -> Z.
Hypothesis balance_nonneg : forall k, 0 <= balance k.

(** What the greedy selection guarantees, by induction on the
    identities: the selected amounts and the remainder add up to the
    target, every selection is a positive part of a non-zero balance of
    an identity of the list, and there are no more selections than
    identities. *)
Lemma specGreedy_accounts (keys : list PrivateKey) (remaining : Z) :
  0 <= remaining ->
  let '(sel, r) := specGreedy balance nonce keys remaining in
  0 <= r
  /\ fold_right Z.add 0 (map (fun s => snd (fst s)) sel) + r = remaining
  /\ Forall (fun s => In (fst (fst s)) keys
                      /\ 0 < snd (fst s) <= balance (fst (fst s))
                      /\ snd s = nonce (fst (fst s))) sel
  /\ (length sel <= length keys)%nat.
Proof.
  revert remaining. induction keys as [|k rest IH]; intros remaining Hrem.
  - cbn. repeat split; auto; lia.
  - cbn [specGreedy]. destruct (0 <? remaining) eqn:Hpos.
    + destruct (balance k =? 0) eqn:Hzero.
      * specialize (IH remaining Hrem).
        destruct (specGreedy balance nonce rest remaining) as [sel r].
        destruct IH as (Hr & Hsum & Hall & Hlen).
        repeat split; auto.
        -- eapply Forall_impl; [|exact Hall]. cbn. intros s (Hin & H). auto.
        -- cbn. lia.
      * apply Z.ltb_lt in Hpos. apply Z.eqb_neq in Hzero.
        pose proof (balance_nonneg k) as Hk.
        assert (Hc : 0 <= remaining - Z.min (balance k) remaining) by lia.
        specialize (IH _ Hc).
        destruct (specGreedy balance nonce rest
                    (remaining - Z.min (balance k) remaining)) as [sel r].
        destruct IH as (Hr & Hsum & Hall & Hlen).
        repeat split; auto.
        -- cbn. lia.
        -- constructor.
           ++ cbn. repeat split; auto; lia.
           ++ eapply Forall_impl; [|exact Hall].
              cbn. intros s (Hin & H). auto.
        -- cbn. lia.
    + apply Z.ltb_ge in Hpos. cbn. repeat split; auto; lia.
Qed.

(** Distinct accounts in, distinct accounts out. *)
Lemma specGreedy_NoDup (keys : list PrivateKey) (remaining : Z) :
  NoDup (map GetEthAddress keys) ->
  NoDup (map (fun s => GetEthAddress (fst (fst s)))
             (fst (specGreedy balance nonce keys remaining))).
Proof.
  revert remaining. induction keys as [|k rest IH]; intros remaining Hnd.
  - constructor.
  - cbn [specGreedy]. inversion Hnd as [|? ? Hnotin Hrest]; subst.
    destruct (0 <? remaining); [|constructor].
    destruct (balance k =? 0); [apply IH; assumption|].
    specialize (IH (remaining - Z.min (balance k) remaining) Hrest).
    assert (Hsub : forall r a,
               In a (map (fun s => GetEthAddress (fst (fst s)))
                         (fst (specGreedy balance nonce rest r))) ->
               In a (map GetEthAddress rest)).
    { clear. intros r a. revert r.
      induction rest as [|k' rest' IH']; intros r Hin; [exact Hin|].
      cbn [specGreedy] in Hin. destruct (0 <? r); [|contradiction].
      destruct (balance k' =? 0).
      - right. eapply IH'; eassumption.
      - destruct (specGreedy balance nonce rest' (r - Z.min (balance k') r))
          as [sel r'] eqn:Hs.
        cbn in Hin. destruct Hin as [<-|Hin]; [left; reflexivity|].
        right. apply (IH' (r - Z.min (balance k') r)). now rewrite Hs. }
    destruct (specGreedy balance nonce rest
                (remaining - Z.min (balance k) remaining)) as [sel r] eqn:Hs.
    cbn. constructor; [|exact IH].
    intros Hin. apply Hnotin.
    apply (Hsub (remaining - Z.min (balance k) remaining)).
    now rewrite Hs.
Qed.

End FundSelection.

Section Refinement.

Variable PrivateKey : Type.
Variable GetEthAddress : PrivateKey -> commonAddress.
Variable vm : VM.
Variable state : StateDB.
Variable assetID : commonHash.
Hypothesis state_read :
  BlockState (chain vm) (getLastAcceptedEthBlock vm) = Ok state.

(** An identity's balance of the asset and its nonce, at the last
    accepted block. *)
Let balanceOf (k : PrivateKey) : Z :=
  assetBalance vm state assetID (GetEthAddress k).
Let nonceOf (k : PrivateKey) : Z := GetNonce state (GetEthAddress k).

(** The loop of the code computes the greedy selection of the
    specification, appended to what it was started with; no [uint64]
    subtraction wraps. *)
Lemma spendLoop_refines (keys : list PrivateKey) (amount : Z)
    (inputs : list AtomicEVMInput) (signers : list (list PrivateKey)) :
  0 <= amount < 2 ^ 64 ->
  spendLoop GetEthAddress vm state assetID keys amount inputs signers
  = Ok (inputs ++ map (specInput GetEthAddress assetID)
                      (fst (specGreedy balanceOf nonceOf keys amount)),
        signers ++ map specSigner
                       (fst (specGreedy balanceOf nonceOf keys amount)),
        snd (specGreedy balanceOf nonceOf keys amount)).
Proof.
  revert amount inputs signers.
  induction keys as [|k rest IH]; intros amount inputs signers Hamt.
  - cbn. now rewrite !app_nil_r.
  - cbn [spendLoop specGreedy].
    destruct (amount =? 0) eqn:Hz.
    + apply Z.eqb_eq in Hz. subst amount. cbn. now rewrite !app_nil_r.
    + apply Z.eqb_neq in Hz.
      assert (Hpos : (0 <? amount) = true) by (apply Z.ltb_lt; lia).
      rewrite Hpos. fold (balanceOf k).
      destruct (balanceOf k =? 0) eqn:Hb; [apply IH; assumption|].
      unfold GetAcceptedNonce. rewrite state_read.
      pose proof (assetBalance_range vm state assetID (GetEthAddress k))
        as Hrange. fold (balanceOf k) in Hrange.
      assert (Hmin : (if amount <? balanceOf k then amount else balanceOf k)
                     = Z.min (balanceOf k) amount).
      { destruct (amount <? balanceOf k) eqn:Hlt; lia. }
      rewrite Hmin.
      assert (Hleft : 0 <= amount - Z.min (balanceOf k) amount < 2 ^ 64)
        by lia.
      rewrite (uint64_small _ Hleft), (IH _ _ _ Hleft).
      destruct (specGreedy balanceOf nonceOf rest
                  (amount - Z.min (balanceOf k) amount)) as [sel r].
      cbn. rewrite <- !app_assoc. reflexivity.
Qed.

Lemma GetSpendableFunds_refines (keys : list PrivateKey) (amount : Z) :
  0 <= amount < 2 ^ 64 ->
  GetSpendableFunds GetEthAddress vm keys assetID amount
  = specSpendableFunds GetEthAddress balanceOf nonceOf keys assetID amount.
Proof.
  intros Hamt. unfold GetSpendableFunds, specSpendableFunds.
  rewrite state_read, (spendLoop_refines keys amount [] [] Hamt).
  destruct (specGreedy balanceOf nonceOf keys amount) as [sel r]. cbn.
  destruct (r >? 0) eqn:Hgt, (0 <? r) eqn:Hlt; try reflexivity; lia.
Qed.

Lemma balanceOf_nonneg (k : PrivateKey) : 0 <= balanceOf k.
Proof. apply assetBalance_range. Qed.

(** What a successful selection looks like: the amounts add up to the
    target, each input is a positive part of a non-zero balance, there
    are no more inputs than identities, and distinct accounts give
    inputs of distinct accounts. *)
Lemma GetSpendableFunds_success (keys : list PrivateKey) (amount : Z)
    (inputs : list AtomicEVMInput) (signers : list (list PrivateKey)) :
  0 <= amount < 2 ^ 64 ->
  GetSpendableFunds GetEthAddress vm keys assetID amount
  = Ok (inputs, signers) ->
  fold_right Z.add 0 (map Amount inputs) = amount
  /\ Forall (fun i => 0 < Amount i
                      /\ assetBalance vm state assetID (Address i) <> 0
                      /\ In (Address i) (map GetEthAddress keys)) inputs
  /\ (length inputs <= length keys)%nat
  /\ length signers = length inputs
  /\ (NoDup (map GetEthAddress keys) -> NoDup (map Address inputs)).
Proof.
  intros Hamt Hok.
  rewrite (GetSpendableFunds_refines keys amount Hamt) in Hok.
  unfold specSpendableFunds in Hok.
  pose proof (specGreedy_accounts PrivateKey balanceOf nonceOf
                balanceOf_nonneg keys amount (proj1 Hamt)) as Hacc.
  pose proof (specGreedy_NoDup PrivateKey GetEthAddress balanceOf nonceOf
                keys amount) as Hnd.
  destruct (specGreedy balanceOf nonceOf keys amount) as [sel r].
  destruct Hacc as (Hr & Hsum & Hall & Hlen).
  destruct (0 <? r) eqn:Hlt; [discriminate|].
  apply Z.ltb_ge in Hlt. injection Hok as <- <-.
  assert (Hamounts : map Amount (map (specInput GetEthAddress assetID) sel)
                     = map (fun s => snd (fst s)) sel).
  { rewrite map_map. apply map_ext. now intros [[k c] n]. }
  assert (Haddrs : map Address (map (specInput GetEthAddress assetID) sel)
                   = map (fun s => GetEthAddress (fst (fst s))) sel).
  { rewrite map_map. apply map_ext. now intros [[k c] n]. }
  rewrite Hamounts, Haddrs, !length_map.
  split; [lia|]. split; [|auto].
  apply Forall_map. eapply Forall_impl; [|exact Hall].
  intros [[k c] n]. cbn. intros (Hin & Hc & _).
  split; [lia|]. split.
  - fold (balanceOf k). lia.
  - now apply in_map.
Qed.

End Refinement.

(** C2 fails for a repeated identity: with account [2] (balance 5)
    listed twice and a target of 8, the selection succeeds with two
    inputs drawn from that one account, 5 and 3, both with its nonce. *)
Lemma repeated_identity_contributes_twice :
  GetSpendableFunds (fun k : Z => k) (Sample.vm 0 1) [2; 2] Sample.asset 8
  = Ok ([ {| Address := 2; Amount := 5; AssetID := Sample.asset; Nonce := 42 |};
          {| Address := 2; Amount := 3; AssetID := Sample.asset; Nonce := 42 |} ],
        [[2]; [2]])
  /\ ~ (forall keys amount inputs signers,
           GetSpendableFunds (fun k : Z => k) (Sample.vm 0 1) keys
             Sample.asset amount = Ok (inputs, signers) ->
           NoDup (map Address inputs)).
Proof.
  assert (Hrun : GetSpendableFunds (fun k : Z => k) (Sample.vm 0 1) [2; 2]
                   Sample.asset 8
                 = Ok ([ {| Address := 2; Amount := 5;
                            AssetID := Sample.asset; Nonce := 42 |};
                         {| Address := 2; Amount := 3;
                            AssetID := Sample.asset; Nonce := 42 |} ],
                       [[2]; [2]])) by reflexivity.
  split; [exact Hrun|].
  intros Hall. specialize (Hall _ _ _ _ Hrun). cbn in Hall.
  inversion Hall as [|? ? Hnotin _]. apply Hnotin. left. reflexivity.
Qed.

(** C2, amended: when the state at the last accepted block can be read
    and the target is a positive [uint64], [GetSpendableFunds] returns
    what the greedy selection of the specification returns, the
    insufficient-funds error with no inputs when the identities run out
    with something left to cover; a successful result has at most one
    input per position of the sequence, and when the identities are
    pairwise distinct accounts it has at most one input per account. *)
Theorem GetSpendableFunds_greedy (PrivateKey : Type)
    (GetEthAddress : PrivateKey -> commonAddress) (vm : VM) (state : StateDB)
    (keys : list PrivateKey) (assetID : commonHash) (amount : Z) :
  BlockState (chain vm) (getLastAcceptedEthBlock vm) = Ok state ->
  0 < amount < 2 ^ 64 ->
  let balance k := assetBalance vm state assetID (GetEthAddress k) in
  let nonce k := GetNonce state (GetEthAddress k) in
  GetSpendableFunds GetEthAddress vm keys assetID amount
  = specSpendableFunds GetEthAddress balance nonce keys assetID amount
  /\ (0 < snd (specGreedy balance nonce keys amount) ->
      GetSpendableFunds GetEthAddress vm keys assetID amount
      = Err errInsufficientFunds)
  /\ (forall inputs signers,
         GetSpendableFunds GetEthAddress vm keys assetID amount
         = Ok (inputs, signers) ->
         (length inputs <= length keys)%nat
         /\ (NoDup (map GetEthAddress keys) -> NoDup (map Address inputs))).
Proof.
  intros Hstate Hamt balance nonce.
  assert (Hrange : 0 <= amount < 2 ^ 64) by lia.
  pose proof (GetSpendableFunds_refines PrivateKey GetEthAddress vm state
                assetID Hstate keys amount Hrange) as Href.
  fold balance nonce in Href.
  split; [exact Href|]. split.
  - intros Hleft. rewrite Href. unfold specSpendableFunds.
    destruct (specGreedy balance nonce keys amount) as [sel r]. cbn in *.
    apply Z.ltb_lt in Hleft. now rewrite Hleft.
  - intros inputs signers Hok.
    destruct (GetSpendableFunds_success PrivateKey GetEthAddress vm state
                assetID Hstate keys amount inputs signers Hrange Hok)
      as (_ & _ & Hlen & _ & Hnd).
    auto.
Qed.

Lemma GetSpendableFunds_greedy_witness :
  GetSpendableFunds (fun k : Z => k) (Sample.vm 0 1) [1; 2; 3] Sample.asset 8
  = Ok ([ {| Address := 2; Amount := 5; AssetID := Sample.asset; Nonce := 42 |};
          {| Address := 3; Amount := 3; AssetID := Sample.asset; Nonce := 43 |} ],
        [[2]; [3]]).
Proof.
  destruct (GetSpendableFunds_greedy Z (fun k => k) (Sample.vm 0 1)
              Sample.state [1; 2; 3] Sample.asset 8 eq_refl)
    as (Href & _); [lia|].
  rewrite Href. reflexivity.
Defined.

(** C3 fails on its first example: with balances 0, 5 and 10 and a
    target of 8 the result is not one input of 8 from the second
    identity; the second identity gives its whole balance 5 and the
    third the remaining 3. *)
Lemma target_8_takes_from_two :
  GetSpendableFunds (fun k : Z => k) (Sample.vm 0 1) [1; 2; 3] Sample.asset 8
  = Ok ([ {| Address := 2; Amount := 5; AssetID := Sample.asset; Nonce := 42 |};
          {| Address := 3; Amount := 3; AssetID := Sample.asset; Nonce := 43 |} ],
        [[2]; [3]])
  /\ forall n,
       GetSpendableFunds (fun k : Z => k) (Sample.vm 0 1) [1; 2; 3]
         Sample.asset 8
       <> Ok ([ {| Address := 2; Amount := 8; AssetID := Sample.asset;
                   Nonce := n |} ], [[2]]).
Proof. split; [reflexivity|]. intros n. discriminate. Qed.

(** C3, amended: for three identities with balances 0, 5 and 10 of the
    asset, a target of 8 selects the second identity for 5 and the third
    for 3; a target of 20 makes the loop take 5 and 10, leaving 5
    uncovered, and the call fails with insufficient funds; and whatever
    the identities and the target, a successful result covers the target
    exactly with positive amounts from non-zero balances. *)
Theorem GetSpendableFunds_examples (PrivateKey : Type)
    (GetEthAddress : PrivateKey -> commonAddress) (vm : VM) (state : StateDB)
    (k1 k2 k3 : PrivateKey) (assetID : commonHash) :
  BlockState (chain vm) (getLastAcceptedEthBlock vm) = Ok state ->
  assetBalance vm state assetID (GetEthAddress k1) = 0 ->
  assetBalance vm state assetID (GetEthAddress k2) = 5 ->
  assetBalance vm state assetID (GetEthAddress k3) = 10 ->
  let input k amount :=
    {| Address := GetEthAddress k; Amount := amount; AssetID := assetID;
       Nonce := GetNonce state (GetEthAddress k) |} in
  GetSpendableFunds GetEthAddress vm [k1; k2; k3] assetID 8
  = Ok ([input k2 5; input k3 3], [[k2]; [k3]])
  /\ spendLoop GetEthAddress vm state assetID [k1; k2; k3] 20 [] []
     = Ok ([input k2 5; input k3 10], [[k2]; [k3]], 5)
  /\ GetSpendableFunds GetEthAddress vm [k1; k2; k3] assetID 20
     = Err errInsufficientFunds
  /\ (forall keys amount inputs signers,
         0 <= amount < 2 ^ 64 ->
         GetSpendableFunds GetEthAddress vm keys assetID amount
         = Ok (inputs, signers) ->
         fold_right Z.add 0 (map Amount inputs) = amount
         /\ Forall (fun i => 0 < Amount i
                             /\ assetBalance vm state assetID (Address i) <> 0)
                   inputs).
Proof.
  intros Hstate H1 H2 H3 input.
  assert (Hloop : forall amount,
             0 <= amount < 2 ^ 64 ->
             spendLoop GetEthAddress vm state assetID [k1; k2; k3] amount [] []
             = _) by (intros amount; apply spendLoop_refines; exact Hstate).
  assert (Hcall : forall amount,
             0 <= amount < 2 ^ 64 ->
             GetSpendableFunds GetEthAddress vm [k1; k2; k3] assetID amount
             = _) by (intros amount; apply GetSpendableFunds_refines;
                      exact Hstate).
  split; [|split; [|split]].
  - rewrite Hcall by lia. unfold specSpendableFunds. cbn [specGreedy].
    rewrite H1, H2, H3. reflexivity.
  - rewrite Hloop by lia. cbn [specGreedy].
    rewrite H1, H2, H3. reflexivity.
  - rewrite Hcall by lia. unfold specSpendableFunds. cbn [specGreedy].
    rewrite H1, H2, H3. reflexivity.
  - intros keys amount inputs signers Hamt Hok.
    destruct (GetSpendableFunds_success PrivateKey GetEthAddress vm state
                assetID Hstate keys amount inputs signers Hamt Hok)
      as (Hsum & Hall & _).
    split; [exact Hsum|].
    eapply Forall_impl; [|exact Hall]. cbn. intros i (Hp & Hb & _). auto.
Qed.

Lemma GetSpendableFunds_examples_witness :
  GetSpendableFunds (fun k : Z => k) (Sample.vm 0 1) [1; 2; 3] Sample.asset 20
  = Err errInsufficientFunds
  /\ spendLoop (fun k : Z => k) (Sample.vm 0 1) Sample.state Sample.asset
       [1; 2; 3] 20 [] []
     = Ok ([ {| Address := 2; Amount := 5; AssetID := Sample.asset;
                Nonce := 42 |};
             {| Address := 3; Amount := 10; AssetID := Sample.asset;
                Nonce := 43 |} ],
           [[2]; [3]], 5).
Proof.
  destruct (GetSpendableFunds_examples Z (fun k => k) (Sample.vm 0 1)
              Sample.state 1 2 3 Sample.asset eq_refl eq_refl eq_refl eq_refl)
    as (_ & Hloop & Hfail & _).
  split; [exact Hfail | exact Hloop].
Defined.

(** * Beyond the claims *)

(** ** The queue under a series of submissions *)

Lemma issueTx_queue (vm : VM) (tx : Tx) :
  pendingAtomicTxs (fst (issueTx vm tx))
  = (if Chan.full (pendingAtomicTxs vm) then pendingAtomicTxs vm
     else Chan.mk (Chan.buf (pendingAtomicTxs vm) ++ [tx])
                  (Chan.cap (pendingAtomicTxs vm)))
  /\ snd (issueTx vm tx)
     = (if Chan.full (pendingAtomicTxs vm) then Some errTooManyAtomicTx
        else None).
Proof.
  unfold issueTx.
  destruct (Chan.full (pendingAtomicTxs vm)) eqn:Hfull.
  - rewrite (chan_try_send_full _ _ Hfull). auto.
  - rewrite (chan_try_send_room _ _ Hfull).
    destruct (Chan.try_send _ tt); cbn; auto.
Qed.

(** X1: a series of submissions fills the queue in order up to its
    capacity: the queue ends as its old content followed by the first
    transactions that fit, exactly those calls return nil, and every
    later call returns the queue-full error. *)
Theorem issueTxs_fills_in_order (txs : list Tx) (vm : VM) :
  (Chan.len (pendingAtomicTxs vm) <= Chan.cap (pendingAtomicTxs vm))%nat ->
  let room := (Chan.cap (pendingAtomicTxs vm)
               - Chan.len (pendingAtomicTxs vm))%nat in
  Chan.buf (pendingAtomicTxs (fst (issueTxs vm txs)))
  = Chan.buf (pendingAtomicTxs vm) ++ firstn room txs
  /\ Chan.cap (pendingAtomicTxs (fst (issueTxs vm txs)))
     = Chan.cap (pendingAtomicTxs vm)
  /\ snd (issueTxs vm txs)
     = repeat None (Nat.min room (length txs))
       ++ repeat (Some errTooManyAtomicTx) (length txs - room).
Proof.
  revert vm. induction txs as [|tx rest IH]; intros vm Hle room.
  - cbn. rewrite firstn_nil, app_nil_r, Nat.min_0_r. auto.
  - cbn [issueTxs].
    destruct (issueTx_queue vm tx) as [Hq He].
    destruct (issueTx vm tx) as [vm1 e]. cbn [fst snd] in Hq, He.
    assert (Hfull : Chan.full (pendingAtomicTxs vm) = Nat.eqb room 0).
    { unfold Chan.full, room.
      destruct (Nat.leb_spec (Chan.cap (pendingAtomicTxs vm))
                             (Chan.len (pendingAtomicTxs vm)));
        symmetry; [apply Nat.eqb_eq | apply Nat.eqb_neq]; lia. }
    rewrite Hfull in Hq, He.
    assert (Hle1 : (Chan.len (pendingAtomicTxs vm1)
                    <= Chan.cap (pendingAtomicTxs vm1))%nat).
    { rewrite Hq. destruct (Nat.eqb_spec room 0); [exact Hle|].
      unfold Chan.len in *; cbn. rewrite length_app; cbn.
      unfold room in *. lia. }
    specialize (IH vm1 Hle1). cbn zeta in IH.
    destruct (issueTxs vm1 rest) as [vm2 es]. cbn [fst snd] in *.
    destruct IH as (Hbuf & Hcap & Hes).
    rewrite Hbuf, Hcap, Hes, He, Hq.
    destruct (Nat.eqb_spec room 0) as [Hz|Hnz].
    + fold room. rewrite Hz. cbn. rewrite Nat.sub_0_r. auto.
    + assert (Hroom : (Chan.cap (pendingAtomicTxs vm)
                       - Chan.len (Chan.mk (Chan.buf (pendingAtomicTxs vm)
                                              ++ [tx])
                                     (Chan.cap (pendingAtomicTxs vm)))
                       = room - 1)%nat).
      { unfold Chan.len; cbn. rewrite length_app; cbn.
        unfold room, Chan.len. lia. }
      cbn [Chan.cap Chan.buf]. rewrite Hroom.
      destruct room as [|r]; [congruence|].
      cbn. rewrite Nat.sub_0_r, <- app_assoc. auto.
Qed.

Lemma issueTxs_fills_in_order_witness :
  let vm := set_pendingAtomicTxs (Chan.make 2) (Sample.vm 0 1) in
  let a := Sample.tx [] in
  Chan.buf (pendingAtomicTxs (fst (issueTxs vm [a; a; a]))) = [a; a]
  /\ snd (issueTxs vm [a; a; a]) = [None; None; Some errTooManyAtomicTx].
Proof.
  intros vm a.
  destruct (issueTxs_fills_in_order [a; a; a] vm) as (Hbuf & _ & Hes).
  - cbn. lia.
  - rewrite Hbuf, Hes. split; reflexivity.
Defined.

(** ** Assembly after submission *)

(** X2: the queue is first-in first-out across [issueTx] and the
    finalize-and-assemble callback: after a submission that found room,
    the callback takes the oldest queued transaction (the new one only
    if the queue was empty), leaves the others queued in order, runs
    that transaction's state transfer and returns its encoding, or the
    transfer's error with no extra-data. *)
Theorem assemble_takes_oldest (T : Type) (vm : VM) (tx : Tx)
    (state : StateDB) (txs : list T) :
  Chan.full (pendingAtomicTxs vm) = false ->
  let oldest := hd tx (Chan.buf (pendingAtomicTxs vm)) in
  let '(vm2, state2, out) :=
    onFinalizeAndAssemble (fst (issueTx vm tx)) state txs in
  Chan.buf (pendingAtomicTxs vm2)
  = tl (Chan.buf (pendingAtomicTxs vm) ++ [tx])
  /\ match UnsignedTx oldest with
     | IsAtomic u =>
         state2 = fst (EVMStateTransfer u state)
         /\ out = match snd (EVMStateTransfer u state) with
                  | Some e => Ret ([], Some e)
                  | None => Ret (marshalRaw vm oldest, None)
                  end
     | _ => state2 = state /\ out = Panic
     end.
Proof.
  intros Hroom oldest.
  destruct (issueTx_queue vm tx) as [Hq _]. rewrite Hroom in Hq.
  assert (Hcodec : codec (fst (issueTx vm tx)) = codec vm).
  { unfold issueTx. rewrite (chan_try_send_room _ _ Hroom).
    destruct (Chan.try_send _ tt); reflexivity. }
  unfold onFinalizeAndAssemble, Chan.try_recv. rewrite Hq.
  cbn [Chan.buf Chan.cap]. unfold oldest.
  destruct (Chan.buf (pendingAtomicTxs vm)) as [|o l]; cbn [app hd tl].
  - destruct (UnsignedTx tx) as [u| |]; cbn; auto.
    destruct (EVMStateTransfer u state) as [state1 [e|]]; cbn; auto.
    unfold marshalRaw. cbn. rewrite Hcodec. auto.
  - destruct (UnsignedTx o) as [u| |]; cbn; auto.
    destruct (EVMStateTransfer u state) as [state1 [e|]]; cbn; auto.
    unfold marshalRaw. cbn. rewrite Hcodec. auto.
Qed.

Lemma assemble_takes_oldest_witness :
  let a := Sample.tx [Byte.x01] in
  let b := Sample.tx [Byte.x02] in
  let vm := fst (issueTx (Sample.vm 0 1) a) in
  let '(vm2, _, out) :=
    onFinalizeAndAssemble (fst (issueTx vm b)) Sample.state (@nil unit) in
  Chan.buf (pendingAtomicTxs vm2) = [b] /\ out = Ret ([Byte.x01], None).
Proof.
  intros a b vm.
  pose proof (assemble_takes_oldest unit vm b Sample.state [] eq_refl) as H.
  cbv zeta in H.
  destruct (onFinalizeAndAssemble (fst (issueTx vm b)) Sample.state [])
    as [[vm2 state2] out].
  destruct H as [Hbuf Hout]. split; [exact Hbuf | apply Hout].
Defined.

(** X3: every error the finalize-and-assemble callback returns comes
    with no extra-data and with one nil handed over on [newBlockChan],
    so the [buildBlock] that is waiting returns "couldn't create block";
    a return without error hands nothing over. *)
Theorem assemble_error_fails_build (T : Type) (vm : VM) (state : StateDB)
    (txs : list T) :
  newBlockChan vm = [] ->
  let '(vm1, _, out) := onFinalizeAndAssemble vm state txs in
  match out with
  | Ret (raw, Some _) =>
      raw = [] /\ newBlockChan vm1 = [None]
      /\ buildBlock vm1 = (set_newBlockChan [] vm1, Failed errCreateBlock)
  | Ret (_, None) | Panic => newBlockChan vm1 = []
  end.
Proof.
  intros Hempty. unfold onFinalizeAndAssemble.
  destruct (Chan.try_recv (pendingAtomicTxs vm)) as [[atx q]|].
  - destruct (UnsignedTx atx) as [u| |]; cbn; auto.
    destruct (EVMStateTransfer u state) as [state1 [e|]]; cbn; auto.
    unfold buildBlock. cbn. rewrite Hempty. cbn. auto.
  - destruct txs; cbn; auto.
    unfold buildBlock. cbn. rewrite Hempty. cbn. auto.
Qed.

Lemma assemble_error_fails_build_witness :
  let '(vm1, _, out) :=
    onFinalizeAndAssemble (Sample.vm 0 1) Sample.state (@nil unit) in
  out = Ret ([], Some errEmptyBlock)
  /\ snd (buildBlock vm1) = Failed errCreateBlock.
Proof.
  pose proof (assemble_error_fails_build unit (Sample.vm 0 1) Sample.state []
                eq_refl) as H.
  destruct (onFinalizeAndAssemble (Sample.vm 0 1) Sample.state [])
    as [[vm1 state1] out] eqn:Hrun.
  assert (Hout : out = Ret ([], Some errEmptyBlock)).
  { cbv in Hrun. congruence. }
  rewrite Hout in H. destruct H as (_ & _ & Hb).
  rewrite Hb. auto.
Defined.

(** X4: a queued atomic transaction takes precedence: while the queue is
    not empty the callback's result does not depend on the ordinary
    transactions it is given, so an empty transaction list is no error
    then. *)
Theorem assemble_atomic_first (T U : Type) (vm : VM) (state : StateDB)
    (txs : list T) (txs' : list U) :
  Chan.buf (pendingAtomicTxs vm) <> [] ->
  onFinalizeAndAssemble vm state txs = onFinalizeAndAssemble vm state txs'.
Proof.
  intros Hne. unfold onFinalizeAndAssemble, Chan.try_recv.
  destruct (Chan.buf (pendingAtomicTxs vm)); [contradiction|reflexivity].
Qed.

Lemma assemble_atomic_first_witness :
  let vm := fst (issueTx (Sample.vm 0 1) (Sample.tx [Byte.x01])) in
  onFinalizeAndAssemble vm Sample.state (@nil unit)
  = onFinalizeAndAssemble vm Sample.state [true; false].
Proof.
  intros vm. apply (assemble_atomic_first unit bool vm Sample.state).
  discriminate.
Defined.



(** ** Sealing, stabilisation and the build *)

(** X6: a sealed block that fails verification is never made the
    expected head: the seal callback hands nil to the builder, returns
    [errInvalidBlock] whatever the verification error was, and the
    waiting [buildBlock] returns "couldn't create block" without
    touching the scheduler. *)
Theorem rejected_seal_fails_build
    (BlockVerify : VM -> Block -> option error) (vm : VM) (block : EthBlock)
    (e : error) :
  newBlockChan vm = [] ->
  BlockVerify vm {| id := blockHash block; ethBlock := block |} = Some e ->
  let vm1 := fst (onSealFinish BlockVerify vm block) in
  snd (onSealFinish BlockVerify vm block) = Some errInvalidBlock
  /\ txPoolStabilizedHead vm1 = txPoolStabilizedHead vm
  /\ snd (buildBlock vm1) = Failed errCreateBlock
  /\ fst (buildBlock vm1) = vm.
Proof.
  intros Hempty Hverify. unfold onSealFinish. cbv zeta.
  rewrite Hverify. cbn.
  unfold buildBlock. cbn. rewrite Hempty. cbn.
  repeat split; auto. destruct vm; cbn in *; subst; reflexivity.
Qed.

Lemma rejected_seal_fails_build_witness :
  let verify := fun (_ : VM) (_ : Block) => Some errEmptyBlock in
  snd (onSealFinish verify (Sample.vm 1 1) Sample.sealed)
  = Some errInvalidBlock
  /\ fst (buildBlock (fst (onSealFinish verify (Sample.vm 1 1) Sample.sealed)))
     = Sample.vm 1 1.
Proof.
  intros verify.
  destruct (rejected_seal_fails_build verify (Sample.vm 1 1) Sample.sealed
              errEmptyBlock eq_refl eq_refl) as (Herr & _ & _ & Hvm).
  split; [exact Herr | exact Hvm].
Defined.

(** X7: one complete round.  After a block is sealed and verified, the
    mined-block event for it lets [buildBlock] return that very block,
    with the expected head cleared, the stabilisation signal consumed,
    nothing left on [newBlockChan] and the scheduler reset to Min with
    the timer armed for [minBlockTime]; after an event for any other
    hash instead, [buildBlock] is still waiting for stabilisation. *)
Theorem sealed_block_round
    (BlockVerify : VM -> Block -> option error) (vm : VM)
    (block other : EthBlock) :
  newBlockChan vm = [] ->
  Chan.buf (txPoolStabilizedOk vm) = [] ->
  Chan.full (txPoolStabilizedOk vm) = false ->
  BlockVerify vm {| id := blockHash block; ethBlock := block |} = None ->
  let blk := {| id := blockHash block; ethBlock := block |} in
  let vm1 := fst (onSealFinish BlockVerify vm block) in
  let mined b := Recv (Some (NewMinedBlockEvent b)) true in
  let vm3 :=
    fst (buildBlock (listenerVM (awaitTxPoolStabilized_step vm1 (mined block))))
  in
  snd (buildBlock (listenerVM (awaitTxPoolStabilized_step vm1 (mined block))))
  = Built blk
  /\ txPoolStabilizedHead vm3 = zeroHash
  /\ Chan.buf (txPoolStabilizedOk vm3) = []
  /\ newBlockChan vm3 = []
  /\ bdTimerState vm3 = bdTimerStateMin
  /\ bdGenWaitFlag vm3 = false
  /\ bdGenFlag vm3 = false
  /\ blockDelayTimer vm3 = Some minBlockTime
  /\ (blockHash other <> blockHash block ->
      snd (buildBlock
             (listenerVM (awaitTxPoolStabilized_step vm1 (mined other))))
      = AwaitStabilized blk).
Proof.
  intros Hempty Hbuf Hroom Hverify blk vm1 mined vm3.
  assert (Hvm1 : vm1 = set_txPoolStabilizedHead (blockHash block)
                         (sendNewBlock (Some blk) vm)).
  { unfold vm1, onSealFinish. cbv zeta. fold blk.
    unfold blk at 1. now rewrite Hverify. }
  assert (Hstep : awaitTxPoolStabilized_step vm1 (mined block)
                  = Continue
                      (set_txPoolStabilizedHead zeroHash
                         (set_txPoolStabilizedOk
                            (Chan.mk [tt] (Chan.cap (txPoolStabilizedOk vm)))
                            vm1))).
  { rewrite Hvm1. unfold mined, awaitTxPoolStabilized_step. cbn [negb].
    cbn [txPoolStabilizedHead set_txPoolStabilizedHead].
    rewrite Z.eqb_refl. unfold Chan.try_send. cbn. rewrite Hroom, Hbuf.
    reflexivity. }
  unfold vm3. rewrite Hstep. cbn [listenerVM]. rewrite Hvm1.
  unfold buildBlock, sendNewBlock. cbn. rewrite Hempty. cbn.
  repeat split; auto.
  intros Hother.
  assert (Hne : (blockHash block =? blockHash other) = false)
    by (apply Z.eqb_neq; congruence).
  unfold mined, awaitTxPoolStabilized_step. cbn. rewrite Hne. cbn.
  unfold Chan.try_recv. now rewrite Hbuf.
Qed.

Lemma sealed_block_round_witness :
  let verify := fun (_ : VM) (_ : Block) => @None error in
  let vm1 := fst (onSealFinish verify (Sample.vm 1 1) Sample.sealed) in
  let mined b := Recv (Some (NewMinedBlockEvent b)) true in
  snd (buildBlock
         (listenerVM (awaitTxPoolStabilized_step vm1 (mined Sample.sealed))))
  = Built {| id := 2000; ethBlock := Sample.sealed |}
  /\ snd (buildBlock
            (listenerVM
               (awaitTxPoolStabilized_step vm1 (mined Sample.genesis))))
     = AwaitStabilized {| id := 2000; ethBlock := Sample.sealed |}.
Proof.
  intros verify vm1 mined.
  destruct (sealed_block_round verify (Sample.vm 1 1) Sample.sealed
              Sample.genesis eq_refl eq_refl eq_refl eq_refl)
    as (Hbuilt & _ & _ & _ & _ & _ & _ & _ & Hwait).
  split; [exact Hbuilt | apply Hwait; discriminate].
Defined.

(** X8: what each outcome of [buildBlock] has consumed.  A block is
    returned only together with one stabilisation signal, taken off the
    channel; while it waits for that signal the scheduler is already
    reset; a failure is always "couldn't create block" and leaves the
    scheduler and the signal channel as they were; and exactly one
    message leaves [newBlockChan] unless none was there. *)
Theorem buildBlock_accounting (vm : VM) :
  let vm' := fst (buildBlock vm) in
  match snd (buildBlock vm) with
  | Built blk =>
      newBlockChan vm = Some blk :: newBlockChan vm'
      /\ Chan.buf (txPoolStabilizedOk vm)
         = tt :: Chan.buf (txPoolStabilizedOk vm')
      /\ bdTimerState vm' = bdTimerStateMin /\ bdGenFlag vm' = false
  | AwaitStabilized blk =>
      newBlockChan vm = Some blk :: newBlockChan vm'
      /\ Chan.buf (txPoolStabilizedOk vm) = []
      /\ bdTimerState vm' = bdTimerStateMin /\ bdGenFlag vm' = false
  | Failed e =>
      e = errCreateBlock
      /\ newBlockChan vm = None :: newBlockChan vm'
      /\ txPoolStabilizedOk vm' = txPoolStabilizedOk vm
      /\ bdTimerState vm' = bdTimerState vm
      /\ bdGenFlag vm' = bdGenFlag vm
      /\ bdGenWaitFlag vm' = bdGenWaitFlag vm
      /\ blockDelayTimer vm' = blockDelayTimer vm
  | AwaitNewBlock => newBlockChan vm = [] /\ vm' = vm
  end.
Proof.
  unfold buildBlock.
  destruct (newBlockChan vm) as [|[blk|] rest] eqn:Hch; cbn; auto 10.
  unfold Chan.try_recv. cbn.
  destruct (Chan.buf (txPoolStabilizedOk vm)) as [|[] signals]; cbn; auto.
Qed.

(** ** The stabilisation listener over whole runs *)

Lemma awaitTxPoolStabilized_step_cases (vm : VM) (w : Wakeup) :
  awaitTxPoolStabilized_step vm w = Continue vm
  \/ awaitTxPoolStabilized_step vm w = Exited vm
  \/ awaitTxPoolStabilized_step vm w = Parked vm
  \/ (minedHash w = Some (txPoolStabilizedHead vm)
      /\ awaitTxPoolStabilized_step vm w
         = Continue
             (set_txPoolStabilizedHead zeroHash
                (set_txPoolStabilizedOk
                   (Chan.mk (Chan.buf (txPoolStabilizedOk vm) ++ [tt])
                            (Chan.cap (txPoolStabilizedOk vm))) vm))).
Proof.
  destruct w as [[[block|]|] [|]|]; cbn; auto.
  destruct (txPoolStabilizedHead vm =? blockHash block) eqn:Heq; auto.
  apply Z.eqb_eq in Heq. unfold Chan.try_send.
  destruct (Chan.full (txPoolStabilizedOk vm)); auto.
  right. right. right. rewrite Heq. auto.
Qed.

(** X9: whatever events arrive, as long as none reports an all-zero
    block hash, one run of the listener posts at most one stabilisation
    signal: the VM ends as it began, or with exactly one more signal and
    the expected head cleared. *)
Theorem listener_posts_at_most_once (ws : list Wakeup) (vm : VM) :
  Forall (fun w => minedHash w <> Some zeroHash) ws ->
  let vm' := listenerVM (awaitTxPoolStabilized vm ws) in
  vm' = vm
  \/ vm' = set_txPoolStabilizedHead zeroHash
             (set_txPoolStabilizedOk
                (Chan.mk (Chan.buf (txPoolStabilizedOk vm) ++ [tt])
                         (Chan.cap (txPoolStabilizedOk vm))) vm).
Proof.
  revert vm. induction ws as [|w ws IH]; intros vm Hall; [left; reflexivity|].
  inversion Hall as [|? ? Hw Hws]; subst. cbn.
  destruct (awaitTxPoolStabilized_step_cases vm w)
    as [-> | [-> | [-> | [_ ->]]]]; cbn; auto.
  right. apply awaitTxPoolStabilized_other. exact Hws.
Qed.

Lemma listener_posts_at_most_once_witness :
  let mined b := Recv (Some (NewMinedBlockEvent b)) true in
  Chan.buf
    (txPoolStabilizedOk
       (listenerVM
          (awaitTxPoolStabilized Sample.sealedVM
             [mined Sample.genesis; mined Sample.sealed; mined Sample.sealed;
              mined Sample.genesis])))
  = [tt].
Proof.
  intros mined.
  destruct (listener_posts_at_most_once
              [mined Sample.genesis; mined Sample.sealed; mined Sample.sealed;
               mined Sample.genesis] Sample.sealedVM) as [H|H].
  - repeat constructor; discriminate.
  - reflexivity.
  - rewrite H. reflexivity.
Defined.

(** X10: the listener returns only on the shutdown channel or on a
    non-nil event received with [ok] false.  A receive from a closed
    subscription, which yields a nil event, takes the [continue] before
    the [ok] test: such receives never end the loop and change
    nothing. *)
Theorem listener_survives_closed_subscription (ws : list Wakeup) (vm : VM) :
  Forall (fun w => w <> Shutdown /\ forall d, w <> Recv (Some d) false) ws ->
  (forall vm', awaitTxPoolStabilized vm ws <> Exited vm')
  /\ (Forall (fun w => exists ok, w = Recv None ok) ws ->
      awaitTxPoolStabilized vm ws = Continue vm).
Proof.
  intros Hall. split.
  - revert vm. induction Hall as [|w ws [Hs Hc] _ IH]; intros vm vm';
      [discriminate|].
    cbn. destruct w as [[[block|]|] [|]|]; cbn; try apply IH.
    + destruct (txPoolStabilizedHead vm =? blockHash block); [|apply IH].
      destruct (Chan.try_send _ tt); [apply IH | discriminate].
    + exfalso. eapply Hc. reflexivity.
    + exfalso. eapply Hc. reflexivity.
    + contradiction.
  - intros Hnil. clear Hall. induction Hnil as [|w ws [ok ->] _ IH];
      [reflexivity | exact IH].
Qed.

Lemma listener_survives_closed_subscription_witness :
  awaitTxPoolStabilized Sample.sealedVM
    [Recv None false; Recv None false; Recv None false]
  = Continue Sample.sealedVM.
Proof.
  apply (listener_survives_closed_subscription
           [Recv None false; Recv None false; Recv None false]
           Sample.sealedVM).
  - repeat constructor; discriminate.
  - repeat constructor; eexists; reflexivity.
Defined.

(** ** The scheduler between two builds *)

(** What a proposal attempt can do to the engine's channel and the
    in-flight flag: nothing, or, from a state other than Min with the
    flag clear, one push together with setting the flag. *)
Lemma tryBlockGen_engine (vm : VM) :
  (networkChan (fst (tryBlockGen vm)) = networkChan vm
   /\ bdGenFlag (fst (tryBlockGen vm)) = bdGenFlag vm)
  \/ (bdGenFlag vm = false
      /\ bdTimerState vm <> bdTimerStateMin
      /\ bdGenFlag (fst (tryBlockGen vm)) = true
      /\ networkChan (fst (tryBlockGen vm)) = pushed vm).
Proof.
  unfold tryBlockGen, notifyEngine, Chan.try_send, pushed.
  destruct (bdGenFlag vm) eqn:Hflag; [cbn; auto|].
  destruct (PendingSize _) as [size|e]; [|cbn; auto].
  destruct (_ && _); [cbn; auto|].
  cbn [bdTimerState set_bdGenWaitFlag networkChan].
  destruct (bdTimerState vm) eqn:Hst; [cbn; auto| |].
  - destruct (size <? batchSize); [cbn; auto|].
    destruct (Chan.full (networkChan vm)); cbn; auto.
    right. repeat split; auto. discriminate.
  - destruct (Chan.full (networkChan vm)); cbn; auto.
    right. repeat split; auto. discriminate.
Qed.

Lemma timerSwitch_engine (vm : VM) :
  networkChan (fst (timerSwitch vm)) = networkChan vm
  /\ bdGenFlag (fst (timerSwitch vm)) = bdGenFlag vm.
Proof. unfold timerSwitch. destruct (bdTimerState vm); cbn; auto. Qed.

Lemma applyCall_engine (vm : VM) (c : Call) :
  (networkChan (applyCall vm c) = networkChan vm
   /\ bdGenFlag (applyCall vm c) = bdGenFlag vm)
  \/ (bdGenFlag vm = false
      /\ bdGenFlag (applyCall vm c) = true
      /\ networkChan (applyCall vm c) = pushed vm).
Proof.
  destruct c as [tx| |w| |ch]; cbn [applyCall].
  - left. unfold issueTx. destruct (Chan.try_send _ tx); [|auto].
    destruct (Chan.try_send _ tt); cbn; auto.
  - destruct (tryBlockGen_engine vm) as [H|(Hf & _ & H)]; auto.
  - destruct w; cbn [awaitSubmittedTxs_step submitterVM]; auto.
    + destruct (tryBlockGen_engine vm) as [H|(Hf & _ & H)]; auto.
    + destruct (Chan.try_recv (atomicTxSubmitChan vm)) as [[u c]|];
        cbn [submitterVM]; auto.
      destruct (tryBlockGen_engine (set_atomicTxSubmitChan c vm))
        as [H|(Hf & _ & H)]; auto.
    + destruct (tryBlockGen_engine vm) as [H|(Hf & _ & H)]; auto.
  - unfold blockDelayTimerHandler.
    destruct (timerSwitch_engine vm) as [Hn Hf].
    destruct (timerSwitch vm) as [vm1 again]. cbn [fst] in Hn, Hf.
    destruct again; [|auto].
    destruct (tryBlockGen_engine vm1) as [[H1 H2]|(Hf1 & _ & H1 & H2)].
    + left. rewrite H1, H2. auto.
    + right. rewrite H1, H2. unfold pushed. rewrite Hn.
      split; [congruence|auto].
  - left. auto.
Qed.

(** X11: one notification per round.  Whatever calls reach the VM, in
    whatever order (submissions, proposal attempts, wake-ups of the
    submission loop, timer fires, changes of the pool), the engine's
    channel gains nothing, or gains the single [PendingTxs] that sets
    the in-flight flag; with the flag already set it gains nothing. *)
Theorem one_notification_per_round (calls : list Call) (vm : VM) :
  (networkChan (applyCalls vm calls) = networkChan vm
   /\ bdGenFlag (applyCalls vm calls) = bdGenFlag vm)
  \/ (bdGenFlag vm = false
      /\ bdGenFlag (applyCalls vm calls) = true
      /\ networkChan (applyCalls vm calls) = pushed vm).
Proof.
  revert vm. induction calls as [|c calls IH]; intros vm; [left; auto|].
  unfold applyCalls in *. cbn [fold_left].
  destruct (applyCall_engine vm c) as [[Hn Hf]|(Hf & Hf1 & Hn)].
  - destruct (IH (applyCall vm c)) as [[Hn' Hf']|(Hf' & Hf1' & Hn')].
    + left. split; congruence.
    + right. unfold pushed in *. rewrite Hn', Hn.
      repeat split; congruence.
  - destruct (IH (applyCall vm c)) as [[Hn' Hf']|(Hf' & _)].
    + right. repeat split; congruence.
    + congruence.
Qed.

Lemma applyCall_floor (vm : VM) (c : Call) :
  isTimer c = false ->
  bdTimerState (applyCall vm c) = bdTimerState vm
  /\ (bdTimerState vm = bdTimerStateMin ->
      networkChan (applyCall vm c) = networkChan vm
      /\ bdGenFlag (applyCall vm c) = bdGenFlag vm).
Proof.
  intros Hc. destruct c as [tx| |w| |ch]; cbn [applyCall];
    try discriminate.
  - unfold issueTx. destruct (Chan.try_send _ tx); [|auto].
    destruct (Chan.try_send _ tt); cbn; auto.
  - split; [apply tryBlockGen_timer|]. intros Hmin.
    destruct (tryBlockGen_engine vm) as [H|(_ & Hne & _)];
      [exact H | contradiction].
  - destruct w; cbn [awaitSubmittedTxs_step submitterVM]; auto.
    + split; [apply tryBlockGen_timer|]. intros Hmin.
      destruct (tryBlockGen_engine vm) as [H|(_ & Hne & _)];
        [exact H | contradiction].
    + destruct (Chan.try_recv (atomicTxSubmitChan vm)) as [[u c]|];
        cbn [submitterVM]; auto.
      split; [apply (tryBlockGen_timer (set_atomicTxSubmitChan c vm))|].
      intros Hmin.
      destruct (tryBlockGen_engine (set_atomicTxSubmitChan c vm))
        as [H|(_ & Hne & _)]; [exact H | contradiction].
    + split; [apply tryBlockGen_timer|]. intros Hmin.
      destruct (tryBlockGen_engine vm) as [H|(_ & Hne & _)];
        [exact H | contradiction].
  - auto.
Qed.

(** X12: the floor after a build.  Once [buildBlock] has taken a block
    off [newBlockChan], no submission, proposal attempt, wake-up or
    change of the pool makes the VM notify the engine before the timer
    fires: the engine's channel stays as it was, the in-flight flag
    stays clear and the state stays Min. *)
Theorem no_notification_before_timer (vm : VM) (blk : Block)
    (rest : list (option Block)) (calls : list Call) :
  newBlockChan vm = Some blk :: rest ->
  forallb (fun c => negb (isTimer c)) calls = true ->
  let vm' := applyCalls (fst (buildBlock vm)) calls in
  networkChan vm' = networkChan vm
  /\ bdGenFlag vm' = false
  /\ bdTimerState vm' = bdTimerStateMin.
Proof.
  intros Hch Hcalls.
  assert (Hstart : networkChan (fst (buildBlock vm)) = networkChan vm
                   /\ bdGenFlag (fst (buildBlock vm)) = false
                   /\ bdTimerState (fst (buildBlock vm)) = bdTimerStateMin).
  { unfold buildBlock. rewrite Hch.
    destruct (Chan.try_recv _) as [[u c]|]; cbn; auto. }
  revert Hstart. generalize (fst (buildBlock vm)) as vm0.
  induction calls as [|c calls IH]; intros vm0 Hstart; [exact Hstart|].
  cbn in Hcalls. apply andb_true_iff in Hcalls as [Hc Hcalls].
  apply negb_true_iff in Hc.
  unfold applyCalls. cbn [fold_left]. apply (IH Hcalls).
  destruct Hstart as (Hn & Hf & Hs).
  destruct (applyCall_floor vm0 c Hc) as [Hs' Hkeep].
  destruct (Hkeep Hs) as [Hn' Hf'].
  repeat split; congruence.
Qed.

Lemma no_notification_before_timer_witness :
  let vm := sendNewBlock
              (Some {| id := 2000; ethBlock := Sample.sealed |})
              (Sample.vm 300 1) in
  networkChan
    (applyCalls (fst (buildBlock vm))
       [CallIssueTx (Sample.tx []); CallWake AtomicTxSubmitted;
        CallTryBlockGen; CallWake IdleTimeout])
  = Chan.make 1.
Proof.
  intros vm.
  destruct (no_notification_before_timer vm
              {| id := 2000; ethBlock := Sample.sealed |} []
              [CallIssueTx (Sample.tx []); CallWake AtomicTxSubmitted;
               CallTryBlockGen; CallWake IdleTimeout] eq_refl eq_refl)
    as (Hn & _).
  exact Hn.
Defined.

Lemma applyCall_state (vm : VM) (c : Call) :
  bdTimerState (applyCall vm c)
  = if isTimer c
    then match bdTimerState vm with
         | bdTimerStateMin => bdTimerStateMax
         | _ => bdTimerStateLong
         end
    else bdTimerState vm.
Proof.
  destruct (isTimer c) eqn:Hc.
  - destruct c; try discriminate. cbn [applyCall].
    unfold blockDelayTimerHandler.
    assert (Hs : bdTimerState (fst (timerSwitch vm))
                 = match bdTimerState vm with
                   | bdTimerStateMin => bdTimerStateMax
                   | _ => bdTimerStateLong
                   end).
    { unfold timerSwitch. destruct (bdTimerState vm) eqn:H; cbn; auto. }
    destruct (timerSwitch vm) as [vm1 again]. cbn [fst] in Hs.
    destruct again; [|exact Hs].
    rewrite <- Hs. apply tryBlockGen_timer.
  - apply applyCall_floor. exact Hc.
Qed.

(** X13: the timer state depends only on how many times the timer fired:
    no other call moves it, one fire takes Min to Max, and after two
    fires, or one fire from Max or Long, the state is Long; no call
    other than a build brings it back to Min. *)
Theorem timer_state_counts_fires (calls : list Call) (vm : VM) :
  bdTimerState (applyCalls vm calls)
  = match length (filter isTimer calls), bdTimerState vm with
    | O, s => s
    | S O, bdTimerStateMin => bdTimerStateMax
    | _, _ => bdTimerStateLong
    end.
Proof.
  revert vm. induction calls as [|c calls IH]; intros vm; [reflexivity|].
  unfold applyCalls in *. cbn [fold_left filter].
  rewrite IH, applyCall_state.
  destruct (isTimer c); cbn [length]; [|reflexivity].
  destruct (length (filter isTimer calls)) as [|[|n]],
           (bdTimerState vm); reflexivity.
Qed.

Lemma tryBlockGen_waits (vm : VM) (size : Z) :
  bdGenFlag vm = false ->
  PendingSize (chain vm) = Ok size ->
  bdTimerState vm = bdTimerStateMin
  \/ (bdTimerState vm = bdTimerStateMax /\ size < batchSize) ->
  fst (tryBlockGen vm) = set_bdGenWaitFlag true vm.
Proof.
  intros Hflag Hsize Hst. unfold tryBlockGen. rewrite Hflag.
  cbn [chain set_bdGenWaitFlag]. rewrite Hsize.
  destruct (_ && _); [reflexivity|].
  cbn [bdTimerState set_bdGenWaitFlag].
  destruct Hst as [-> | [-> Hlt]]; [reflexivity|].
  apply Z.ltb_lt in Hlt. now rewrite Hlt.
Qed.

Lemma tryBlockGen_sends (vm : VM) (size : Z) :
  bdGenFlag vm = false ->
  PendingSize (chain vm) = Ok size ->
  0 < size ->
  Chan.full (networkChan vm) = false ->
  bdTimerState vm = bdTimerStateLong
  \/ (bdTimerState vm = bdTimerStateMax /\ batchSize <= size) ->
  fst (tryBlockGen vm)
  = set_bdGenFlag true
      (set_networkChan (pushed vm) (set_bdGenWaitFlag true vm)).
Proof.
  intros Hflag Hsize Hpos Hroom Hst. unfold tryBlockGen. rewrite Hflag.
  cbn [chain set_bdGenWaitFlag]. rewrite Hsize.
  assert (Hnz : (size =? 0) = false) by (apply Z.eqb_neq; lia).
  rewrite Hnz. cbn [andb bdTimerState set_bdGenWaitFlag].
  assert (Hsend : fst (notifyEngine (set_bdGenWaitFlag true vm))
                  = set_bdGenFlag true
                      (set_networkChan (pushed vm)
                         (set_bdGenWaitFlag true vm))).
  { unfold notifyEngine, Chan.try_send.
    cbn [networkChan set_bdGenWaitFlag]. now rewrite Hroom. }
  destruct Hst as [-> | [-> Hge]]; [exact Hsend|].
  assert (Hlt : (size <? batchSize) = false) by (apply Z.ltb_ge; lia).
  rewrite Hlt. exact Hsend.
Qed.

(** X14: a pending transaction is announced by the second timer fire at
    the latest.  From state Min with nothing in flight, a positive
    pending size and room in the engine's channel, a proposal attempt
    followed by two timer fires has notified the engine exactly once;
    after the first fire it has done so exactly when the pending size
    reaches the batch size 250.  Without the attempt, which sets the
    wait flag, the two fires alone reach Long but notify nobody. *)
Theorem announced_by_second_fire (vm : VM) (size : Z) :
  bdTimerState vm = bdTimerStateMin ->
  bdGenFlag vm = false ->
  PendingSize (chain vm) = Ok size ->
  0 < size ->
  Chan.full (networkChan vm) = false ->
  let one := applyCalls vm [CallTryBlockGen; CallTimer] in
  let two := applyCalls vm [CallTryBlockGen; CallTimer; CallTimer] in
  networkChan two = pushed vm
  /\ bdGenFlag two = true
  /\ bdTimerState two = bdTimerStateLong
  /\ networkChan one
     = (if 250 <=? size then pushed vm else networkChan vm)
  /\ (bdGenWaitFlag vm = false ->
      networkChan (applyCalls vm [CallTimer; CallTimer]) = networkChan vm
      /\ bdTimerState (applyCalls vm [CallTimer; CallTimer])
         = bdTimerStateLong).
Proof.
  intros Hmin Hflag Hsize Hpos Hroom one two.
  set (rearm := maxDuration (maxBlockTime - minBlockTime) 0).
  pose (a := set_bdGenWaitFlag true vm).
  pose (b := SetTimeoutIn rearm (set_bdTimerState bdTimerStateMax a)).
  assert (Ha : fst (tryBlockGen vm) = a)
    by (apply (tryBlockGen_waits vm size); auto).
  assert (Hb : blockDelayTimerHandler a = fst (tryBlockGen b)).
  { unfold blockDelayTimerHandler, timerSwitch. cbn. rewrite Hmin.
    reflexivity. }
  assert (Hlast : forall v,
             bdTimerState v = bdTimerStateMax ->
             bdGenWaitFlag v = true ->
             blockDelayTimerHandler v
             = fst (tryBlockGen (set_bdTimerState bdTimerStateLong v))).
  { intros v Hs Hw. unfold blockDelayTimerHandler, timerSwitch.
    rewrite Hs. cbn. now rewrite Hw. }
  assert (Hone : one = fst (tryBlockGen b)).
  { unfold one, applyCalls. cbn [fold_left applyCall]. now rewrite Ha, Hb. }
  assert (Htwo : two = blockDelayTimerHandler (fst (tryBlockGen b))).
  { unfold two, applyCalls. cbn [fold_left applyCall]. now rewrite Ha, Hb. }
  assert (Hnone : bdGenWaitFlag vm = false ->
                  networkChan (applyCalls vm [CallTimer; CallTimer])
                  = networkChan vm
                  /\ bdTimerState (applyCalls vm [CallTimer; CallTimer])
                     = bdTimerStateLong).
  { intros Hwait. unfold applyCalls, blockDelayTimerHandler, timerSwitch.
    cbn. rewrite Hmin. cbn. rewrite Hwait. cbn. rewrite Hwait. auto. }
  destruct (Z_lt_ge_dec size batchSize) as [Hlt|Hge].
  - assert (Hsmall : (250 <=? size) = false)
      by (apply Z.leb_gt; unfold batchSize in Hlt; lia).
    assert (Hb1 : fst (tryBlockGen b) = set_bdGenWaitFlag true b).
    { apply (tryBlockGen_waits b size); auto. }
    rewrite Hsmall, Htwo, Hone, Hb1.
    rewrite Hlast by reflexivity.
    rewrite (tryBlockGen_sends _ size) by auto.
    repeat split; auto; apply Hnone; assumption.
  - assert (Hbig : (250 <=? size) = true)
      by (apply Z.leb_le; unfold batchSize in Hge; lia).
    assert (Hb1 : fst (tryBlockGen b)
                  = set_bdGenFlag true
                      (set_networkChan (pushed b)
                         (set_bdGenWaitFlag true b))).
    { apply (tryBlockGen_sends b size); auto.
      right. split; [reflexivity | lia]. }
    rewrite Hbig, Htwo, Hone, Hb1.
    rewrite Hlast by reflexivity.
    repeat split; auto; apply Hnone; assumption.
Qed.

Lemma announced_by_second_fire_witness :
  let vm := set_bdTimerState bdTimerStateMin
              (set_bdGenWaitFlag false (Sample.vm 5 1)) in
  Chan.buf (networkChan (applyCalls vm [CallTryBlockGen; CallTimer])) = []
  /\ Chan.buf
       (networkChan (applyCalls vm [CallTryBlockGen; CallTimer; CallTimer]))
     = [PendingTxs]
  /\ Chan.buf (networkChan (applyCalls vm [CallTimer; CallTimer])) = [].
Proof.
  intros vm.
  destruct (announced_by_second_fire vm 5 eq_refl eq_refl eq_refl)
    as (Htwo & _ & _ & Hone & Hnone); [lia | reflexivity |].
  rewrite Htwo, Hone. destruct (Hnone eq_refl) as [Hn _]. rewrite Hn.
  repeat split.
Defined.

(** ** From submission to proposal *)

Lemma issueTx_room (vm : VM) (tx : Tx) :
  Chan.full (pendingAtomicTxs vm) = false ->
  Chan.buf (atomicTxSubmitChan vm) = [] ->
  Chan.full (atomicTxSubmitChan vm) = false ->
  fst (issueTx vm tx)
  = set_atomicTxSubmitChan (Chan.mk [tt] (Chan.cap (atomicTxSubmitChan vm)))
      (set_pendingAtomicTxs
         (Chan.mk (Chan.buf (pendingAtomicTxs vm) ++ [tx])
                  (Chan.cap (pendingAtomicTxs vm))) vm).
Proof.
  intros Hroom Hbuf Hsig. unfold issueTx.
  rewrite (chan_try_send_room _ _ Hroom).
  unfold Chan.try_send. cbn. now rewrite Hsig, Hbuf.
Qed.

(** X15: an atomic transaction submitted to a VM with nothing in flight
    wakes the submission loop, which takes the signal and attempts a
    proposal.  In state Long the engine is notified even when the
    ordinary pool is empty; in state Max with fewer than 250 ordinary
    transactions it is not, however many atomic transactions are queued:
    they do not count towards the batch size. *)
Theorem atomic_submission_wakes_scheduler (vm : VM) (tx : Tx) (size : Z) :
  bdGenFlag vm = false ->
  PendingSize (chain vm) = Ok size ->
  Chan.full (pendingAtomicTxs vm) = false ->
  Chan.buf (atomicTxSubmitChan vm) = [] ->
  Chan.full (atomicTxSubmitChan vm) = false ->
  Chan.full (networkChan vm) = false ->
  exists vm',
    awaitSubmittedTxs_step (fst (issueTx vm tx)) AtomicTxSubmitted
    = Running vm'
    /\ Chan.buf (pendingAtomicTxs vm')
       = Chan.buf (pendingAtomicTxs vm) ++ [tx]
    /\ Chan.buf (atomicTxSubmitChan vm') = []
    /\ bdGenWaitFlag vm' = true
    /\ (bdTimerState vm = bdTimerStateLong ->
        networkChan vm' = pushed vm /\ bdGenFlag vm' = true)
    /\ (bdTimerState vm = bdTimerStateMax -> size < 250 ->
        networkChan vm' = networkChan vm /\ bdGenFlag vm' = false).
Proof.
  intros Hflag Hsize Hroom Hbuf Hsig Hnet.
  rewrite (issueTx_room vm tx Hroom Hbuf Hsig).
  unfold awaitSubmittedTxs_step, Chan.try_recv.
  cbn [atomicTxSubmitChan set_atomicTxSubmitChan Chan.buf Chan.cap].
  eexists. split; [reflexivity|].
  unfold tryBlockGen. cbn [bdGenFlag set_atomicTxSubmitChan
                             set_pendingAtomicTxs set_bdGenWaitFlag chain].
  rewrite Hflag, Hsize.
  assert (Hlen : Nat.eqb (Chan.len (Chan.mk (Chan.buf (pendingAtomicTxs vm)
                                               ++ [tx])
                                      (Chan.cap (pendingAtomicTxs vm)))) 0
                 = false).
  { apply Nat.eqb_neq. unfold Chan.len. cbn. rewrite length_app. cbn. lia. }
  cbn [pendingAtomicTxs set_atomicTxSubmitChan set_pendingAtomicTxs
       set_bdGenWaitFlag bdTimerState].
  rewrite Hlen, andb_false_r.
  destruct (bdTimerState vm) eqn:Hst; cbn.
  - repeat split; auto; discriminate.
  - destruct (size <? batchSize) eqn:Hlt; cbn.
    + repeat split; auto; discriminate.
    + unfold notifyEngine, Chan.try_send. cbn. rewrite Hnet. cbn.
      apply Z.ltb_ge in Hlt. unfold batchSize in Hlt.
      repeat split; auto; try discriminate; exfalso; lia.
  - unfold notifyEngine, Chan.try_send. cbn. rewrite Hnet. cbn.
    repeat split; auto; discriminate.
Qed.

Lemma atomic_submission_wakes_scheduler_witness :
  (exists vm',
      awaitSubmittedTxs_step (fst (issueTx (Sample.vm 0 1) (Sample.tx [])))
        AtomicTxSubmitted = Running vm'
      /\ Chan.buf (networkChan vm') = [PendingTxs])
  /\ (exists vm',
         awaitSubmittedTxs_step
           (fst (issueTx (set_bdTimerState bdTimerStateMax (Sample.vm 7 1))
                         (Sample.tx [])))
           AtomicTxSubmitted = Running vm'
         /\ Chan.buf (networkChan vm') = []).
Proof.
  split.
  - destruct (atomic_submission_wakes_scheduler (Sample.vm 0 1) (Sample.tx [])
                0 eq_refl eq_refl eq_refl eq_refl eq_refl eq_refl)
      as (vm' & Hstep & _ & _ & _ & Hlong & _).
    exists vm'. split; [exact Hstep|].
    destruct (Hlong eq_refl) as [Hn _]. rewrite Hn. reflexivity.
  - destruct (atomic_submission_wakes_scheduler
                (set_bdTimerState bdTimerStateMax (Sample.vm 7 1))
                (Sample.tx []) 7 eq_refl eq_refl eq_refl eq_refl eq_refl
                eq_refl)
      as (vm' & Hstep & _ & _ & _ & _ & Hmax).
    exists vm'. split; [exact Hstep|].
    destruct (Hmax eq_refl) as [Hn _]; [lia|]. rewrite Hn. reflexivity.
Defined.

(** ** More on fund selection *)

Section GreedyFacts.

Variable PrivateKey : Type.
Variables balance nonce : PrivateKey -> Z.
Hypothesis balance_nonneg : forall k, 0 <= balance k.

Lemma total_nonneg (keys : list PrivateKey) :
  0 <= fold_right Z.add 0 (map balance keys).
Proof.
  induction keys as [|k rest IH]; cbn; [lia|].
  pose proof (balance_nonneg k). lia.
Qed.

Lemma specGreedy_nothing_left (keys : list PrivateKey) :
  specGreedy balance nonce keys 0 = ([], 0).
Proof. destruct keys; reflexivity. Qed.

(** What stays uncovered is the target less the sum of the balances,
    or nothing. *)
Lemma specGreedy_remainder (keys : list PrivateKey) (remaining : Z) :
  0 <= remaining ->
  snd (specGreedy balance nonce keys remaining)
  = Z.max 0 (remaining - fold_right Z.add 0 (map balance keys)).
Proof.
  revert remaining. induction keys as [|k rest IH]; intros remaining Hrem.
  - cbn. lia.
  - cbn [specGreedy map fold_right].
    pose proof (balance_nonneg k) as Hk.
    pose proof (total_nonneg rest) as Hrest.
    destruct (0 <? remaining) eqn:Hpos.
    + apply Z.ltb_lt in Hpos.
      destruct (balance k =? 0) eqn:Hzero.
      * apply Z.eqb_eq in Hzero. rewrite IH by lia. lia.
      * specialize (IH (remaining - Z.min (balance k) remaining)).
        destruct (specGreedy balance nonce rest
                    (remaining - Z.min (balance k) remaining)) as [sel r].
        cbn [snd] in *. rewrite IH by lia. lia.
    + apply Z.ltb_ge in Hpos. cbn. lia.
Qed.

(** Only the last selection can be a part of a balance: every earlier
    one takes the whole balance. *)
Lemma specGreedy_full_but_last (keys : list PrivateKey) (remaining : Z)
    (pre : list (PrivateKey * Z * Z)) (last : PrivateKey * Z * Z) :
  fst (specGreedy balance nonce keys remaining) = pre ++ [last] ->
  Forall (fun s => snd (fst s) = balance (fst (fst s))) pre.
Proof.
  revert remaining pre.
  induction keys as [|k rest IH]; intros remaining pre Hsel.
  - cbn in Hsel. now destruct pre.
  - cbn [specGreedy] in Hsel.
    destruct (0 <? remaining) eqn:Hpos; [|now destruct pre].
    destruct (balance k =? 0); [eapply IH; eassumption|].
    destruct (Z.min_spec (balance k) remaining) as [[Hlt Hmin]|[Hge Hmin]].
    + rewrite Hmin in Hsel.
      specialize (IH (remaining - balance k)).
      destruct (specGreedy balance nonce rest (remaining - balance k))
        as [sel r]. cbn [fst] in *.
      destruct pre as [|p pre']; [constructor|].
      injection Hsel as <- Hsel. constructor; [reflexivity|].
      apply IH. exact Hsel.
    + rewrite Hmin, Z.sub_diag, specGreedy_nothing_left in Hsel.
      cbn in Hsel. destruct pre as [|p [|q pre']]; try discriminate.
      constructor.
Qed.

End GreedyFacts.

Section Selection.

Variable PrivateKey : Type.
Variable GetEthAddress : PrivateKey -> commonAddress.
Variable vm : VM.
Variable state : StateDB.
Variable assetID : commonHash.
Hypothesis state_read :
  BlockState (chain vm) (getLastAcceptedEthBlock vm) = Ok state.

Let balanceOf (k : PrivateKey) : Z :=
  assetBalance vm state assetID (GetEthAddress k).
Let nonceOf (k : PrivateKey) : Z := GetNonce state (GetEthAddress k).

(** A successful call returns the greedy selections, with nothing left
    uncovered. *)
Lemma GetSpendableFunds_selection (keys : list PrivateKey) (amount : Z)
    (inputs : list AtomicEVMInput) (signers : list (list PrivateKey)) :
  0 <= amount < 2 ^ 64 ->
  GetSpendableFunds GetEthAddress vm keys assetID amount
  = Ok (inputs, signers) ->
  exists sel,
    specGreedy balanceOf nonceOf keys amount = (sel, 0)
    /\ inputs = map (specInput GetEthAddress assetID) sel
    /\ signers = map specSigner sel.
Proof.
  intros Hamt Hok.
  rewrite (GetSpendableFunds_refines PrivateKey GetEthAddress vm state
             assetID state_read keys amount Hamt) in Hok.
  unfold specSpendableFunds in Hok. fold balanceOf nonceOf in Hok.
  pose proof (specGreedy_accounts PrivateKey balanceOf nonceOf
                (balanceOf_nonneg PrivateKey GetEthAddress vm state assetID)
                keys amount (proj1 Hamt)) as Hacc.
  destruct (specGreedy balanceOf nonceOf keys amount) as [sel r].
  destruct Hacc as (Hr & _).
  destruct (0 <? r) eqn:Hlt; [discriminate|].
  apply Z.ltb_ge in Hlt. injection Hok as <- <-.
  exists sel. repeat split. f_equal. lia.
Qed.

End Selection.

(** X16: [GetSpendableFunds] fails with insufficient funds exactly when
    the balances of the listed identities, added up, fall short of the
    target (a balance counts once per time its identity is listed);
    otherwise it succeeds, and with a zero target it returns no input
    at all. *)
Theorem GetSpendableFunds_covers_iff_total (PrivateKey : Type)
    (GetEthAddress : PrivateKey -> commonAddress) (vm : VM) (state : StateDB)
    (keys : list PrivateKey) (assetID : commonHash) (amount : Z) :
  BlockState (chain vm) (getLastAcceptedEthBlock vm) = Ok state ->
  0 <= amount < 2 ^ 64 ->
  let total :=
    fold_right Z.add 0
      (map (fun k => assetBalance vm state assetID (GetEthAddress k)) keys) in
  (amount <= total ->
   exists inputs signers,
     GetSpendableFunds GetEthAddress vm keys assetID amount
     = Ok (inputs, signers))
  /\ (total < amount ->
      GetSpendableFunds GetEthAddress vm keys assetID amount
      = Err errInsufficientFunds)
  /\ (amount = 0 ->
      GetSpendableFunds GetEthAddress vm keys assetID amount = Ok ([], [])).
Proof.
  intros Hstate Hamt total.
  set (balance := fun k => assetBalance vm state assetID (GetEthAddress k)).
  set (nonce := fun k => GetNonce state (GetEthAddress k)).
  assert (Hnonneg : forall k, 0 <= balance k)
    by (intros k; apply assetBalance_range).
  pose proof (specGreedy_remainder PrivateKey balance nonce Hnonneg keys
                amount (proj1 Hamt)) as Hrem.
  assert (Htotal : fold_right Z.add 0 (map balance keys) = total)
    by reflexivity.
  rewrite Htotal in Hrem. clearbody total.
  rewrite (GetSpendableFunds_refines PrivateKey GetEthAddress vm state
             assetID Hstate keys amount Hamt).
  fold balance nonce. unfold specSpendableFunds.
  split; [|split].
  - intros Hle. destruct (specGreedy balance nonce keys amount) as [sel r].
    cbn [snd] in Hrem.
    assert (Hz : (0 <? r) = false) by (apply Z.ltb_ge; lia).
    rewrite Hz. eauto.
  - intros Hlt. destruct (specGreedy balance nonce keys amount) as [sel r].
    cbn [snd] in Hrem.
    assert (Hz : (0 <? r) = true) by (apply Z.ltb_lt; lia).
    now rewrite Hz.
  - intros ->. now rewrite specGreedy_nothing_left.
Qed.

Lemma GetSpendableFunds_covers_iff_total_witness :
  (exists inputs signers,
      GetSpendableFunds (fun k : Z => k) (Sample.vm 0 1) [1; 2; 3]
        Sample.asset 15 = Ok (inputs, signers))
  /\ GetSpendableFunds (fun k : Z => k) (Sample.vm 0 1) [1; 2; 3]
       Sample.asset 16 = Err errInsufficientFunds.
Proof.
  split.
  - destruct (GetSpendableFunds_covers_iff_total Z (fun k => k)
                (Sample.vm 0 1) Sample.state [1; 2; 3] Sample.asset 15
                eq_refl) as (Hok & _); [lia|].
    apply Hok. cbn. lia.
  - destruct (GetSpendableFunds_covers_iff_total Z (fun k => k)
                (Sample.vm 0 1) Sample.state [1; 2; 3] Sample.asset 16
                eq_refl) as (_ & Hfail & _); [lia|].
    apply Hfail. cbn. lia.
Defined.

(** X17: inputs and signers correspond position by position, as the
    function's comment says: the n-th signer list is the single key
    whose account the n-th input spends from, the input carries the
    requested asset and the account's nonce at the last accepted block,
    and its amount is positive and no more than the account's balance. *)
Theorem GetSpendableFunds_inputs_match_signers (PrivateKey : Type)
    (GetEthAddress : PrivateKey -> commonAddress) (vm : VM) (state : StateDB)
    (keys : list PrivateKey) (assetID : commonHash) (amount : Z)
    (inputs : list AtomicEVMInput) (signers : list (list PrivateKey)) :
  BlockState (chain vm) (getLastAcceptedEthBlock vm) = Ok state ->
  0 <= amount < 2 ^ 64 ->
  GetSpendableFunds GetEthAddress vm keys assetID amount
  = Ok (inputs, signers) ->
  Forall2 (fun i s =>
             exists k, In k keys
                       /\ s = [k]
                       /\ Address i = GetEthAddress k
                       /\ AssetID i = assetID
                       /\ Nonce i = GetNonce state (Address i)
                       /\ 0 < Amount i
                          <= assetBalance vm state assetID (Address i))
          inputs signers.
Proof.
  intros Hstate Hamt Hok.
  destruct (GetSpendableFunds_selection PrivateKey GetEthAddress vm state
              assetID Hstate keys amount inputs signers Hamt Hok)
    as (sel & Hsel & -> & ->).
  pose proof (specGreedy_accounts PrivateKey
                (fun k => assetBalance vm state assetID (GetEthAddress k))
                (fun k => GetNonce state (GetEthAddress k))
                (balanceOf_nonneg PrivateKey GetEthAddress vm state assetID)
                keys amount (proj1 Hamt)) as Hacc.
  rewrite Hsel in Hacc. destruct Hacc as (_ & _ & Hall & _).
  clear Hsel Hok. induction Hall as [|[[k c] n] sel (Hin & Hc & Hn) _ IH];
    cbn; constructor; [|exact IH].
  exists k. cbn in *. repeat split; auto; lia.
Qed.

Lemma GetSpendableFunds_inputs_match_signers_witness :
  Forall2 (fun i s => exists k, s = [k] /\ Address i = k)
    [ {| Address := 2; Amount := 5; AssetID := Sample.asset; Nonce := 42 |};
      {| Address := 3; Amount := 3; AssetID := Sample.asset; Nonce := 43 |} ]
    [[2]; [3]].
Proof.
  pose proof (GetSpendableFunds_inputs_match_signers Z (fun k => k)
                (Sample.vm 0 1) Sample.state [1; 2; 3] Sample.asset 8
                [ {| Address := 2; Amount := 5; AssetID := Sample.asset;
                     Nonce := 42 |};
                  {| Address := 3; Amount := 3; AssetID := Sample.asset;
                     Nonce := 43 |} ]
                [[2]; [3]] eq_refl) as H.
  eapply Forall2_impl; [|apply H; [lia | reflexivity]].
  cbn. intros i s (k & _ & Hs & Ha & _). eauto.
Defined.

(** X18: only the last input can be a partial spend: every input before
    the last takes the whole balance of its account. *)
Theorem GetSpendableFunds_full_but_last (PrivateKey : Type)
    (GetEthAddress : PrivateKey -> commonAddress) (vm : VM) (state : StateDB)
    (keys : list PrivateKey) (assetID : commonHash) (amount : Z)
    (pre : list AtomicEVMInput) (last : AtomicEVMInput)
    (signers : list (list PrivateKey)) :
  BlockState (chain vm) (getLastAcceptedEthBlock vm) = Ok state ->
  0 <= amount < 2 ^ 64 ->
  GetSpendableFunds GetEthAddress vm keys assetID amount
  = Ok (pre ++ [last], signers) ->
  Forall (fun i => Amount i = assetBalance vm state assetID (Address i)) pre.
Proof.
  intros Hstate Hamt Hok.
  destruct (GetSpendableFunds_selection PrivateKey GetEthAddress vm state
              assetID Hstate keys amount _ signers Hamt Hok)
    as (sel & Hsel & Hinputs & _).
  destruct (exists_last (l := sel)) as (selpre & sellast & ->).
  { intros ->. now destruct pre. }
  rewrite map_app in Hinputs. cbn in Hinputs.
  apply app_inj_tail in Hinputs as [-> _].
  pose proof (specGreedy_full_but_last PrivateKey
                (fun k => assetBalance vm state assetID (GetEthAddress k))
                (fun k => GetNonce state (GetEthAddress k))
                keys amount selpre sellast) as Hfull.
  rewrite Hsel in Hfull. specialize (Hfull eq_refl).
  apply Forall_map. eapply Forall_impl; [|exact Hfull].
  intros [[k c] n]. cbn. auto.
Qed.

Lemma GetSpendableFunds_full_but_last_witness :
  Forall (fun i => Amount i
                   = assetBalance (Sample.vm 0 1) Sample.state Sample.asset
                       (Address i))
    [ {| Address := 2; Amount := 5; AssetID := Sample.asset; Nonce := 42 |} ].
Proof.
  apply (GetSpendableFunds_full_but_last Z (fun k => k) (Sample.vm 0 1)
           Sample.state [1; 2; 3] Sample.asset 8
           [ {| Address := 2; Amount := 5; AssetID := Sample.asset;
                Nonce := 42 |} ]
           {| Address := 3; Amount := 3; AssetID := Sample.asset;
              Nonce := 43 |} [[2]; [3]] eq_refl);
    [lia | reflexivity].
Defined.



(** ** Atomic UTXO query *)

Section UTXOs.

Variable UTXO : Type.
Variable UnmarshalUTXO : bytes -> result UTXO.

(** The decoding loop yields one UTXO per element, or the wrapped error
    of the first element that does not decode. *)
Lemma parseUTXOs_all_or_first_error (all : list bytes) :
  match parseUTXOs UnmarshalUTXO all with
  | Ok utxos => Forall2 (fun b u => UnmarshalUTXO b = Ok u) all utxos
  | Err e =>
      exists pre b post e0,
        all = pre ++ b :: post
        /\ Forall (fun b' => exists u, UnmarshalUTXO b' = Ok u) pre
        /\ UnmarshalUTXO b = Err e0
        /\ e = wrapError "error parsing UTXO" e0
  end.
Proof.
  induction all as [|b rest IH]; cbn; [constructor|].
  destruct (UnmarshalUTXO b) as [u|e0] eqn:Hb.
  - destruct (parseUTXOs UnmarshalUTXO rest) as [utxos|e].
    + constructor; assumption.
    + destruct IH as (pre & b' & post & e1 & -> & Hpre & Hb' & ->).
      exists (b :: pre), b', post, e1. repeat split; auto.
      constructor; eauto.
  - exists [], b, rest, e0. repeat split; auto.
Qed.

End UTXOs.

(** X20: [GetAtomicUTXOs] never asks the shared memory for fewer than 1
    or more than 1024 UTXOs: its result does not depend on what the
    index would answer outside that range, and a limit that is not
    positive or exceeds 1024 fetches exactly like the limit 1024. *)
Theorem GetAtomicUTXOs_limit_in_range (UTXO : Type)
    (Indexed Indexed' :
       commonHash -> list bytes -> bytes -> bytes -> Z ->
       result (list bytes * bytes * bytes))
    (UnmarshalUTXO : bytes -> result UTXO)
    (ToShortID : bytes -> result commonAddress)
    (ToID : bytes -> result commonHash)
    (ShortBytes : commonAddress -> bytes) (IDBytes : commonHash -> bytes)
    (ShortEmpty : commonAddress) (Empty : commonHash)
    (chainID : commonHash) (addrs : list commonAddress)
    (startAddr : commonAddress) (startUTXOID : commonHash) (limit : Z) :
  (forall c a s u l, 1 <= l <= 1024 ->
                     Indexed c a s u l = Indexed' c a s u l) ->
  GetAtomicUTXOs Indexed UnmarshalUTXO ToShortID ToID ShortBytes IDBytes
    ShortEmpty Empty chainID addrs startAddr startUTXOID limit
  = GetAtomicUTXOs Indexed' UnmarshalUTXO ToShortID ToID ShortBytes IDBytes
      ShortEmpty Empty chainID addrs startAddr startUTXOID limit
  /\ (limit <= 0 \/ 1024 < limit ->
      GetAtomicUTXOs Indexed UnmarshalUTXO ToShortID ToID ShortBytes IDBytes
        ShortEmpty Empty chainID addrs startAddr startUTXOID limit
      = GetAtomicUTXOs Indexed UnmarshalUTXO ToShortID ToID ShortBytes
          IDBytes ShortEmpty Empty chainID addrs startAddr startUTXOID 1024).
Proof.
  intros Hagree.
  assert (Hrange : 1 <= utxoLimit limit <= 1024).
  { unfold utxoLimit, maxUTXOsToFetch.
    destruct (limit <=? 0) eqn:H0; cbn; [lia|].
    destruct (limit >? 1024) eqn:H1; lia. }
  split.
  - unfold GetAtomicUTXOs. now rewrite (Hagree _ _ _ _ _ Hrange).
  - intros Hout. unfold GetAtomicUTXOs.
    assert (Hl : utxoLimit limit = utxoLimit 1024).
    { unfold utxoLimit, maxUTXOsToFetch. cbn.
      destruct Hout as [Hle|Hgt].
      - assert (H0 : (limit <=? 0) = true) by (apply Z.leb_le; lia).
        now rewrite H0.
      - assert (H1 : (limit >? 1024) = true) by lia.
        rewrite H1. now rewrite orb_true_r. }
    now rewrite Hl.
Qed.

Lemma GetAtomicUTXOs_limit_in_range_witness :
  GetAtomicUTXOs Wire.indexed Wire.unmarshalUTXO Wire.toShortID Wire.toID
    Wire.shortBytes Wire.idBytes 0 0 5 [1] 1 2 (-3)
  = Ok ([Byte.x0a; Byte.x0b], 1, 0)
  /\ GetAtomicUTXOs Wire.indexed Wire.unmarshalUTXO Wire.toShortID Wire.toID
       Wire.shortBytes Wire.idBytes 0 0 5 [1] 1 2 5000
     = GetAtomicUTXOs
         (fun c a s u l => if l <=? 1024 then Wire.indexed c a s u l
                           else Err errEmptyBlock)
         Wire.unmarshalUTXO Wire.toShortID Wire.toID
         Wire.shortBytes Wire.idBytes 0 0 5 [1] 1 2 5000.
Proof.
  split.
  - assert (Hsame : forall c a s u l, 1 <= l <= 1024 ->
                      Wire.indexed c a s u l = Wire.indexed c a s u l)
      by reflexivity.
    destruct (GetAtomicUTXOs_limit_in_range Byte.byte Wire.indexed
                Wire.indexed Wire.unmarshalUTXO Wire.toShortID Wire.toID
                Wire.shortBytes Wire.idBytes 0 0 5 [1] 1 2 (-3) Hsame)
      as [_ Hclamp].
    rewrite Hclamp by lia. reflexivity.
  - assert (Hagree : forall c a s u l, 1 <= l <= 1024 ->
                       Wire.indexed c a s u l
                       = (if l <=? 1024 then Wire.indexed c a s u l
                          else Err errEmptyBlock)).
    { intros c a s u l Hl.
      assert (Hle : (l <=? 1024) = true) by (apply Z.leb_le; lia).
      now rewrite Hle. }
    destruct (GetAtomicUTXOs_limit_in_range Byte.byte Wire.indexed
                (fun c a s u l => if l <=? 1024 then Wire.indexed c a s u l
                                  else Err errEmptyBlock)
                Wire.unmarshalUTXO Wire.toShortID Wire.toID
                Wire.shortBytes Wire.idBytes 0 0 5 [1] 1 2 5000 Hagree)
      as [Heq _].
    exact Heq.
Defined.

(** X21: [GetAtomicUTXOs] decodes all or nothing.  When the index
    answers, a successful result holds exactly one decoded UTXO per
    fetched element, in order, and the two cursors fall back to the
    empty ids when the returned bytes are not ids; a failed result is
    the wrapped error of the first element that does not decode.  When
    the index fails, its error is returned wrapped. *)
Theorem GetAtomicUTXOs_all_or_nothing (UTXO : Type)
    (Indexed :
       commonHash -> list bytes -> bytes -> bytes -> Z ->
       result (list bytes * bytes * bytes))
    (UnmarshalUTXO : bytes -> result UTXO)
    (ToShortID : bytes -> result commonAddress)
    (ToID : bytes -> result commonHash)
    (ShortBytes : commonAddress -> bytes) (IDBytes : commonHash -> bytes)
    (ShortEmpty : commonAddress) (Empty : commonHash)
    (chainID : commonHash) (addrs : list commonAddress)
    (startAddr : commonAddress) (startUTXOID : commonHash) (limit : Z) :
  let fetched :=
    Indexed chainID (map ShortBytes addrs) (ShortBytes startAddr)
      (IDBytes startUTXOID) (utxoLimit limit) in
  let call :=
    GetAtomicUTXOs Indexed UnmarshalUTXO ToShortID ToID ShortBytes IDBytes
      ShortEmpty Empty chainID addrs startAddr startUTXOID limit in
  match fetched with
  | Err e => call = Err (wrapError "error fetching atomic UTXOs" e)
  | Ok (all, lastAddr, lastUTXO) =>
      match call with
      | Ok (utxos, lastAddrID, lastUTXOID) =>
          Forall2 (fun b u => UnmarshalUTXO b = Ok u) all utxos
          /\ lastAddrID = match ToShortID lastAddr with
                          | Ok a => a
                          | Err _ => ShortEmpty
                          end
          /\ lastUTXOID = match ToID lastUTXO with
                          | Ok i => i
                          | Err _ => Empty
                          end
      | Err e =>
          exists pre b post e0,
            all = pre ++ b :: post
            /\ Forall (fun b' => exists u, UnmarshalUTXO b' = Ok u) pre
            /\ UnmarshalUTXO b = Err e0
            /\ e = wrapError "error parsing UTXO" e0
      end
  end.
Proof.
  intros fetched call. unfold call, GetAtomicUTXOs. fold fetched.
  destruct fetched as [[[all lastAddr] lastUTXO]|e]; [|reflexivity].
  pose proof (parseUTXOs_all_or_first_error UTXO UnmarshalUTXO all) as H.
  destruct (parseUTXOs UnmarshalUTXO all) as [utxos|e]; auto.
Qed.

(** ** Addresses *)

Section Addresses.

Variable ToShortID : bytes -> result commonAddress.
Variable ShortBytes : commonAddress -> bytes.
Variable formattingParseAddress : string -> result (string * string * bytes).
Variable formattingFormatAddress : string -> string -> bytes -> result string.
Variable GetHRP : Z -> string.
Variable quoted : string -> string.
Variable quotedID : commonHash -> string.

(** X22: [ParseLocalAddress] returns an address exactly when the string
    parses, its chain alias resolves to this chain, its HRP is the one of
    this network and its bytes are a short id; an address of another
    chain or another network is never returned. *)
Theorem ParseLocalAddress_only_local (ctx : snowContext) (addrStr : string)
    (addr : commonAddress) :
  ParseLocalAddress ToShortID formattingParseAddress GetHRP quoted quotedID
    ctx addrStr = Ok addr
  <-> exists alias addrBytes,
        formattingParseAddress addrStr
        = Ok (alias, GetHRP (NetworkID ctx), addrBytes)
        /\ Lookup ctx alias = Ok (ChainID ctx)
        /\ ToShortID addrBytes = Ok addr.
Proof.
  unfold ParseLocalAddress, ParseAddress. split.
  - destruct (formattingParseAddress addrStr) as [[[alias hrp] addrBytes]|e];
      [|discriminate].
    destruct (Lookup ctx alias) as [chainID|e] eqn:Hlookup; [|discriminate].
    destruct (String.eqb_spec hrp (GetHRP (NetworkID ctx))) as [->|Hne];
      cbn; [|discriminate].
    destruct (ToShortID addrBytes) as [a|e] eqn:Hshort; [|discriminate].
    destruct (Z.eqb_spec chainID (ChainID ctx)) as [->|Hne];
      cbn; [|discriminate].
    intros H. injection H as ->. eauto.
  - intros (alias & addrBytes & -> & -> & Hshort).
    rewrite String.eqb_refl. cbn. rewrite Hshort, Z.eqb_refl. reflexivity.
Qed.

(** X23: formatting a local address and parsing it back gives the
    address again, provided the collaborators invert each other: the
    chain's primary alias resolves back to the chain, the parser reads
    what the formatter wrote, and the short id is rebuilt from its
    bytes. *)
Theorem FormatLocalAddress_then_parse (ctx : snowContext)
    (addr : commonAddress) (alias text : string) :
  PrimaryAlias ctx (ChainID ctx) = Ok alias ->
  Lookup ctx alias = Ok (ChainID ctx) ->
  formattingFormatAddress alias (GetHRP (NetworkID ctx)) (ShortBytes addr)
  = Ok text ->
  formattingParseAddress text
  = Ok (alias, GetHRP (NetworkID ctx), ShortBytes addr) ->
  ToShortID (ShortBytes addr) = Ok addr ->
  FormatLocalAddress ShortBytes formattingFormatAddress GetHRP ctx addr
  = Ok text
  /\ ParseLocalAddress ToShortID formattingParseAddress GetHRP quoted
       quotedID ctx text = Ok addr.
Proof.
  intros Halias Hlookup Hformat Hparse Hshort. split.
  - unfold FormatLocalAddress, FormatAddress. now rewrite Halias.
  - unfold ParseLocalAddress, ParseAddress.
    rewrite Hparse, Hlookup, String.eqb_refl. cbn.
    rewrite Hshort, Z.eqb_refl. reflexivity.
Qed.

End Addresses.

Lemma ParseLocalAddress_only_local_witness :
  ParseLocalAddress Wire.toShortID Wire.parseAddr Wire.hrp
    (fun s => s) (fun _ => "5"%string) Wire.ctx "C-local1qy" = Ok 1.
Proof.
  apply (ParseLocalAddress_only_local Wire.toShortID Wire.parseAddr Wire.hrp
           (fun s => s) (fun _ => "5"%string) Wire.ctx "C-local1qy" 1).
  exists "C"%string, [Byte.x01]. repeat split.
Defined.

Lemma FormatLocalAddress_then_parse_witness :
  FormatLocalAddress Wire.shortBytes Wire.formatAddr Wire.hrp Wire.ctx 1
  = Ok "C-local1qy"%string
  /\ ParseLocalAddress Wire.toShortID Wire.parseAddr Wire.hrp
       (fun s => s) (fun _ => "5"%string) Wire.ctx "C-local1qy" = Ok 1.
Proof.
  apply (FormatLocalAddress_then_parse Wire.toShortID Wire.shortBytes
           Wire.parseAddr Wire.formatAddr Wire.hrp (fun s => s)
           (fun _ => "5"%string) Wire.ctx 1 "C" "C-local1qy");
    reflexivity.
Defined.

(** ** Block identifiers *)

(** X24: a block handed out by [getBlock], by [parseBlock] or to the
    builder by the seal callback always carries the hash of its own
    contents as identifier, also when [getBlock] was asked for another
    id than the chain's block hashes to; and [getBlock] fails, with
    "unknown block", exactly when the chain has no block for the id. *)
Theorem block_id_is_content_hash
    (GetBlockByHash : commonHash -> option EthBlock)
    (rlpDecodeBlock : bytes -> result EthBlock) (BlackholeAddr : commonAddress)
    (BlockVerify : VM -> Block -> option error)
    (vm : VM) (h : commonHash) (b : bytes) (sealed : EthBlock) :
  match getBlock GetBlockByHash h with
  | Ok blk => GetBlockByHash h = Some (ethBlock blk)
              /\ id blk = blockHash (ethBlock blk)
  | Err e => GetBlockByHash h = None /\ Error e = "unknown block"%string
  end
  /\ match parseBlock rlpDecodeBlock BlackholeAddr vm b with
     | Ok blk => id blk = blockHash (ethBlock blk)
     | Err _ => True
     end
  /\ Forall (fun m => match m with
                      | Some blk => id blk = blockHash (ethBlock blk)
                      | None => True
                      end)
            (skipn (length (newBlockChan vm))
                   (newBlockChan (fst (onSealFinish BlockVerify vm sealed)))).
Proof.
  split; [|split].
  - unfold getBlock. destruct (GetBlockByHash h); cbn; auto.
  - unfold parseBlock. destruct (rlpDecodeBlock b) as [eth|e]; [|exact I].
    destruct (negb _); [exact I|]. destruct (_ && _); [exact I|].
    reflexivity.
  - unfold onSealFinish. cbv zeta.
    destruct (BlockVerify vm _); cbn;
      rewrite skipn_app, skipn_all, Nat.sub_diag; cbn;
      repeat constructor.
Qed.

(** ** Invariants of a VM's history *)

Lemma chan_try_send_keeps {A : Type} (c c' : Chan.t A) (x : A) (n : nat) :
  Chan.cap c = n -> (Chan.len c <= n)%nat ->
  Chan.try_send c x = Some c' ->
  Chan.cap c' = n /\ (Chan.len c' <= n)%nat.
Proof.
  intros Hcap Hlen Hs.
  destruct (chan_try_send_bound _ _ _ Hs) as [_ Hb].
  unfold Chan.try_send in Hs. destruct (Chan.full c); [discriminate|].
  injection Hs as <-. cbn in *. split; [exact Hcap | lia].
Qed.

Lemma chan_try_recv_keeps {A : Type} (c c' : Chan.t A) (x : A) (n : nat) :
  Chan.cap c = n -> (Chan.len c <= n)%nat ->
  Chan.try_recv c = Some (x, c') ->
  Chan.cap c' = n /\ (Chan.len c' <= n)%nat.
Proof.
  intros Hcap Hlen Hr. destruct (chan_try_recv_head _ _ _ Hr) as [Hbuf Hc].
  unfold Chan.len in *. rewrite Hbuf in Hlen. cbn in Hlen.
  split; [congruence | lia].
Qed.

Lemma tryBlockGen_channels (vm : VM) :
  pendingAtomicTxs (fst (tryBlockGen vm)) = pendingAtomicTxs vm
  /\ atomicTxSubmitChan (fst (tryBlockGen vm)) = atomicTxSubmitChan vm
  /\ txPoolStabilizedOk (fst (tryBlockGen vm)) = txPoolStabilizedOk vm.
Proof.
  unfold tryBlockGen, notifyEngine.
  destruct (bdGenFlag vm); [auto|].
  destruct (PendingSize _) as [size|e]; [|cbn; auto].
  destruct (_ && _); [cbn; auto|].
  destruct (bdTimerState _); cbn; auto.
  - destruct (size <? batchSize); cbn; auto.
    destruct (Chan.try_send _ _); cbn; auto.
  - destruct (Chan.try_send _ _); cbn; auto.
Qed.

Lemma applyCall_bounded (vm : VM) (c : Call) :
  channelsBounded vm -> channelsBounded (applyCall vm c).
Proof.
  intros (Hc1 & Hl1 & Hc2 & Hl2 & Hc3 & Hl3). unfold channelsBounded.
  destruct c as [tx| |w| |ch]; cbn [applyCall].
  - unfold issueTx.
    destruct (Chan.try_send (pendingAtomicTxs vm) tx) as [q|] eqn:Hq;
      [|cbn; auto 10].
    destruct (chan_try_send_keeps _ _ _ _ Hc1 Hl1 Hq) as [Hqc Hql].
    destruct (Chan.try_send _ tt) as [s|] eqn:Hs; cbn; auto 10.
    cbn in Hs. destruct (chan_try_send_keeps _ _ _ _ Hc2 Hl2 Hs).
    auto 10.
  - destruct (tryBlockGen_channels vm) as (-> & -> & ->). auto 10.
  - destruct w; cbn [awaitSubmittedTxs_step submitterVM]; auto 10.
    + destruct (tryBlockGen_channels vm) as (-> & -> & ->). auto 10.
    + destruct (Chan.try_recv (atomicTxSubmitChan vm)) as [[u s]|] eqn:Hs;
        cbn [submitterVM]; auto 10.
      destruct (chan_try_recv_keeps _ _ _ _ Hc2 Hl2 Hs).
      destruct (tryBlockGen_channels (set_atomicTxSubmitChan s vm))
        as (-> & -> & ->). cbn. auto 10.
    + destruct (tryBlockGen_channels vm) as (-> & -> & ->). auto 10.
  - unfold blockDelayTimerHandler, timerSwitch.
    destruct (bdTimerState vm); cbn;
      destruct (bdGenWaitFlag vm); cbn; auto 10;
      match goal with
      | |- context [tryBlockGen ?v] =>
          destruct (tryBlockGen_channels v) as (-> & -> & ->)
      end; cbn; auto 10.
  - cbn. auto 10.
Qed.

(** X25: from [Initialize] on, whatever is submitted, attempted, fired,
    assembled, sealed, built or reported, in whatever order, the pending
    queue holds at most 1024 transactions and the wake-up and
    stabilisation channels at most one signal each. *)
Theorem channels_stay_bounded
    (BlockVerify : VM -> Block -> option error)
    (avax : commonHash) (ch : ETHChain) (cdc : codecManager)
    (genesis : EthBlock) (accepted : Block) (toEngine : Chan.t Message)
    (events : list Event) :
  let vm := history BlockVerify
              (Initialize avax ch cdc genesis accepted toEngine) events in
  (Chan.len (pendingAtomicTxs vm) <= 1024)%nat
  /\ (Chan.len (atomicTxSubmitChan vm) <= 1)%nat
  /\ (Chan.len (txPoolStabilizedOk vm) <= 1)%nat.
Proof.
  assert (Hinit : channelsBounded
                    (Initialize avax ch cdc genesis accepted toEngine)).
  { unfold channelsBounded, Chan.len. cbn. repeat split; lia. }
  assert (Hstep : forall v e, channelsBounded v ->
                              channelsBounded (react BlockVerify v e)).
  { intros v e Hb. destruct e as [c|state n|block| |w]; cbn [react].
    - apply applyCall_bounded. exact Hb.
    - destruct Hb as (Hc1 & Hl1 & Hc2 & Hl2 & Hc3 & Hl3).
      unfold channelsBounded, onFinalizeAndAssemble.
      destruct (Chan.try_recv (pendingAtomicTxs v)) as [[atx q]|] eqn:Hq.
      + destruct (chan_try_recv_keeps _ _ _ _ Hc1 Hl1 Hq).
        destruct (UnsignedTx atx) as [u| |]; cbn; auto 10.
        destruct (EVMStateTransfer u state) as [s1 [err|]]; cbn; auto 10.
      + destruct (repeat tt n); cbn; auto 10.
    - unfold onSealFinish. cbv zeta.
      destruct (BlockVerify v _); cbn; exact Hb.
    - destruct Hb as (Hc1 & Hl1 & Hc2 & Hl2 & Hc3 & Hl3).
      unfold channelsBounded, buildBlock.
      destruct (newBlockChan v) as [|[blk|] rest]; cbn; auto 10.
      destruct (Chan.try_recv (txPoolStabilizedOk v)) as [[u s]|] eqn:Hs;
        cbn; auto 10.
      destruct (chan_try_recv_keeps _ _ _ _ Hc3 Hl3 Hs). auto 10.
    - destruct Hb as (Hc1 & Hl1 & Hc2 & Hl2 & Hc3 & Hl3).
      unfold channelsBounded.
      destruct w as [[[block|]|] [|]|]; cbn; auto 10.
      destruct (txPoolStabilizedHead v =? blockHash block); cbn; auto 10.
      destruct (Chan.try_send (txPoolStabilizedOk v) tt) as [s|] eqn:Hs;
        cbn; auto 10.
      destruct (chan_try_send_keeps _ _ _ _ Hc3 Hl3 Hs). auto 10. }
  assert (Hall : forall es v, channelsBounded v ->
                              channelsBounded (history BlockVerify v es)).
  { induction es as [|e es IH]; intros v Hb; [exact Hb|].
    unfold history in *. cbn [fold_left]. apply IH, Hstep, Hb. }
  intros vm. destruct (Hall events _ Hinit) as (_ & H1 & _ & H2 & _ & H3).
  unfold pendingAtomicTxsCap in H1. auto.
Qed.

Lemma tryBlockGen_after_wait (vm : VM) :
  bdGenFlag vm = false ->
  tryBlockGen (set_bdGenWaitFlag true vm) = tryBlockGen vm.
Proof.
  intros Hflag. unfold tryBlockGen. cbn [bdGenFlag set_bdGenWaitFlag].
  rewrite Hflag. reflexivity.
Qed.

Lemma tryBlockGen_result (vm : VM) :
  bdGenFlag vm = false ->
  fst (tryBlockGen vm) = set_bdGenWaitFlag true vm
  \/ bdGenFlag (fst (tryBlockGen vm)) = true.
Proof.
  intros Hflag. unfold tryBlockGen, notifyEngine. rewrite Hflag.
  destruct (PendingSize _) as [size|e]; [|auto].
  destruct (_ && _); [auto|].
  destruct (bdTimerState _); auto.
  - destruct (size <? batchSize); auto.
    destruct (Chan.try_send _ _); auto.
  - destruct (Chan.try_send _ _); auto.
Qed.

(** X26: proposal attempts coalesce: while the chain reports the same
    pool, a second [tryBlockGen] right after a first changes nothing,
    whether the first notified the engine, was refused by a full
    channel or decided to wait. *)
Theorem tryBlockGen_idempotent (vm : VM) :
  fst (tryBlockGen (fst (tryBlockGen vm))) = fst (tryBlockGen vm).
Proof.
  destruct (bdGenFlag vm) eqn:Hflag.
  - unfold tryBlockGen. rewrite Hflag. cbn. now rewrite Hflag.
  - destruct (tryBlockGen_result vm Hflag) as [Hwait|Hsent].
    + rewrite Hwait at 1. rewrite (tryBlockGen_after_wait vm Hflag).
      reflexivity.
    + unfold tryBlockGen at 1. now rewrite Hsent.
Qed.
